(** * Artifact verification (pkg/auth/artifact_verifier.go)

    A shallow embedding of the artifact verifiers of p2: the null
    verifier, the build-manifest verifier, the build verifier and the
    composite verifier that chains the last two.  Go code that performs
    I/O is embedded in a state-and-error monad over an explicit [World]:
    the open files (with their read offsets), the temporary file system,
    and the log of requests made to the fetcher. *)

From Stdlib Require Import NArith Ascii String Strings.Byte.
From stdpp Require Import gmap strings list fin_maps pretty.

Local Open Scope string_scope.

(** ** Bytes and hexadecimal rendering *)

Abbreviation bytes := (list byte).

Definition byte_of_N (n : N) : byte :=
  match Byte.of_N (n mod 256)%N with
  | Some b => b
  | None => x00
  end.

(** [encoding/hex]: [const hextable = "0123456789abcdef"]. *)
Definition hextable : string := "0123456789abcdef".

Definition hexdigit (n : N) : ascii :=
  match String.get (N.to_nat n) hextable with
  | Some c => c
  | None => "0"%char
  end.

(** [hex.EncodeToString]: for every byte [v], the characters
    [hextable[v>>4]] and [hextable[v&0x0f]]. *)
Fixpoint hex_EncodeToString (src : bytes) : string :=
  match src with
  | [] => ""
  | v :: rest =>
      String (hexdigit (N.shiftr (Byte.to_N v) 4))
        (String (hexdigit (N.land (Byte.to_N v) 15))
           (hex_EncodeToString rest))
  end.

(** A string made only of the characters [0-9a-f]. *)
Definition is_lower_hex_char (c : ascii) : bool :=
  let n := N_of_ascii c in
  ((48 <=? n) && (n <=? 57) || (97 <=? n) && (n <=? 102))%N.

Fixpoint is_lower_hex (s : string) : bool :=
  match s with
  | EmptyString => true
  | String c rest => is_lower_hex_char c && is_lower_hex rest
  end.

(** ** SHA-256 ([crypto/sha256], FIPS 180-4) on 32-bit words held in [N] *)

Module SHA256.

Local Open Scope N_scope.

Definition mask32 (x : N) : N := x mod 4294967296.
Definition add32 (x y : N) : N := mask32 (x + y).
Definition rotr (n x : N) : N :=
  N.lor (N.shiftr x n) (mask32 (N.shiftl x (32 - n))).
Definition not32 (x : N) : N := N.lxor x 4294967295.

Definition Ch (x y z : N) : N := N.lxor (N.land x y) (N.land (not32 x) z).
Definition Maj (x y z : N) : N :=
  N.lxor (N.lxor (N.land x y) (N.land x z)) (N.land y z).
Definition Sigma0 (x : N) : N := N.lxor (N.lxor (rotr 2 x) (rotr 13 x)) (rotr 22 x).
Definition Sigma1 (x : N) : N := N.lxor (N.lxor (rotr 6 x) (rotr 11 x)) (rotr 25 x).
Definition sigma0 (x : N) : N := N.lxor (N.lxor (rotr 7 x) (rotr 18 x)) (N.shiftr x 3).
Definition sigma1 (x : N) : N := N.lxor (N.lxor (rotr 17 x) (rotr 19 x)) (N.shiftr x 10).

(** The first 64 primes. *)
Definition is_prime (n : nat) : bool :=
  forallb (fun d => negb (n `mod` d =? 0)%nat) (seq 2 (n - 2)).

Definition primes : list nat := Eval vm_compute in filter is_prime (seq 2 310).

(** The largest [r] below [2 ^ bits] with [r ^ 3 <= x], found bit by bit. *)
Fixpoint cube_root (bits : nat) (x r : N) : N :=
  match bits with
  | O => r
  | S bits' =>
      let r' := r + N.shiftl 1 (N.of_nat bits') in
      cube_root bits' x (if r' * r' * r' <=? x then r' else r)
  end.

(** The round constants: the first 32 bits of the fractional parts of the
    cube roots of the first 64 primes. *)
Definition K : list N :=
  Eval vm_compute in
    map (fun p => mask32 (cube_root 36 (N.shiftl (N.of_nat p) 96) 0)) primes.

(** The eight working words. *)
Record state := State { ha : N; hb : N; hc : N; hd : N; he : N; hf : N; hg : N; hh : N }.

(** The initial hash value: the first 32 bits of the fractional parts of
    the square roots of the first 8 primes. *)
Definition init : state :=
  Eval vm_compute in
    match map (fun p => mask32 (N.sqrt (N.shiftl (N.of_nat p) 64))) (take 8 primes) with
    | [a; b; c; d; e; f; g; h] => State a b c d e f g h
    | _ => State 0 0 0 0 0 0 0 0
    end.

(** Padding: a [0x80] byte, zeros up to 56 modulo 64, then the bit length
    as a 64-bit big-endian integer. *)
Definition be_bytes (width : nat) (x : N) : bytes :=
  map (fun i => byte_of_N (N.shiftr x (8 * N.of_nat i))) (rev (seq 0 width)).

Definition pad (msg : bytes) : bytes :=
  let len := List.length msg in
  let zeros := ((64 - (len + 9) `mod` 64) `mod` 64)%nat in
  msg ++ x80 :: repeat x00 zeros ++ be_bytes 8 (8 * N.of_nat len).

Fixpoint be_word (bs : bytes) (acc : N) : N :=
  match bs with
  | [] => acc
  | b :: rest => be_word rest (N.lor (N.shiftl acc 8) (Byte.to_N b))
  end.

(** The sixteen big-endian words of one 64-byte block. *)
Fixpoint block_words (n : nat) (blk : bytes) : list N :=
  match n with
  | O => []
  | S n' => be_word (take 4 blk) 0 :: block_words n' (drop 4 blk)
  end.

(** Message schedule, kept most recent word first: [w] holds
    [W[t-1]; W[t-2]; ...]. *)
Fixpoint schedule (n : nat) (w : list N) : list N :=
  match n with
  | O => w
  | S n' =>
      let at_ i := nth i w 0 in
      let wt := add32 (add32 (sigma1 (at_ 1%nat)) (at_ 6%nat))
                      (add32 (sigma0 (at_ 14%nat)) (at_ 15%nat)) in
      schedule n' (wt :: w)
  end.

Definition round (s : state) (kw : N * N) : state :=
  let '(k, w) := kw in
  let t1 := add32 (add32 (add32 (hh s) (Sigma1 (he s))) (Ch (he s) (hf s) (hg s)))
                  (add32 k w) in
  let t2 := add32 (Sigma0 (ha s)) (Maj (ha s) (hb s) (hc s)) in
  State (add32 t1 t2) (ha s) (hb s) (hc s) (add32 (hd s) t1) (he s) (hf s) (hg s).

Definition compress (s : state) (blk : bytes) : state :=
  let w := rev (schedule 48 (rev (block_words 16 blk))) in
  let r := fold_left round (combine K w) s in
  State (add32 (ha s) (ha r)) (add32 (hb s) (hb r)) (add32 (hc s) (hc r))
        (add32 (hd s) (hd r)) (add32 (he s) (he r)) (add32 (hf s) (hf r))
        (add32 (hg s) (hg r)) (add32 (hh s) (hh r)).

Fixpoint blocks (n : nat) (s : state) (data : bytes) : state :=
  match n with
  | O => s
  | S n' => blocks n' (compress s (take 64 data)) (drop 64 data)
  end.

Definition digest (s : state) : bytes :=
  be_bytes 4 (ha s) ++ be_bytes 4 (hb s) ++ be_bytes 4 (hc s) ++ be_bytes 4 (hd s) ++
  be_bytes 4 (he s) ++ be_bytes 4 (hf s) ++ be_bytes 4 (hg s) ++ be_bytes 4 (hh s).

(** [sha256.Sum256]: the 32-byte checksum of [data]. *)
Definition Sum256 (data : bytes) : bytes :=
  let p := pad data in
  digest (blocks (List.length p / 64)%nat init p).

End SHA256.

#[global] Arguments SHA256.Sum256 : simpl never.

Definition bytes_of_string (s : string) : bytes := list_byte_of_string s.

(** ** Results and errors *)

Inductive result (E A : Type) : Type :=
| Ok (a : A)
| Err (e : E).
Arguments Ok {E A} a.
Arguments Err {E A} e.

(** The message of an error raised below this package (by [os], [ioutil],
    the fetcher, the key store, [openpgp], [armor] or [yaml]). *)
Abbreviation cause := string.

(** [net/url.URL]. *)
Record URL := mkURL {
  Scheme : string;
  Opaque : string;
  User : option (string * option string);
  Host : string;
  Path : string;
  RawPath : string;
  RawQuery : string;
  Fragment : string
}.

(** [u.Path = p], every other field kept. *)
Definition with_Path (u : URL) (p : string) : URL :=
  mkURL (Scheme u) (Opaque u) (User u) (Host u) p (RawPath u) (RawQuery u) (Fragment u).

(** One constructor for every place where the package returns an error;
    the comment gives the format string of the [util.Errorf] call. *)
Inductive error : Type :=
| ErrSchemeManifest (location : URL) (scheme : string)
    (* "%v does not have a recognized scheme '%v', cannot verify manifest or signature" *)
| ErrSchemeBuild (location : URL)
    (* "%v does not have a recognized scheme, cannot verify signature" *)
| ErrTempDir (c : cause)
    (* "Could not create temporary directory for manifest file: %v" *)
| ErrManifestDownload (location : URL) (c : cause)
    (* "Could not download artifact manifest for %v: %v" *)
| ErrManifestSigDownload (location : URL) (c : cause)
    (* "Could not download manifest signature for %v: %v" *)
| ErrReadFile (c : cause)
    (* [return err] after [ioutil.ReadFile], the error passed on as it is *)
| ErrArmorBody (c : cause)
    (* "Discovered an armored signature but could not read the body: %v" *)
| ErrSignature (c : cause)
    (* "Could not verify data against the signature: %v" *)
| ErrReadLocalCopy (c : cause)
    (* "Could not read given local copy of the artifact: %v" *)
| ErrUnmarshal (c : cause)
    (* "Could not unmarshal manifest bytes: %v" *)
| ErrDigest (realDigest : string) (artifactDigest : string)
    (* "Artifact hex digest did not match the given manifest: expected %v, was actually %v" *)
| ErrSigFetch (sigURI : URL) (c : cause)
    (* "Could not fetch artifact signature from %v: %v" *)
| ErrSigRead (sigPath : string) (c : cause)
    (* "Could not read downloaded signature at %v: %v" *)
| ErrReadArtifact (c : cause)
    (* "Could not read the artifact into memory: %v" *)
| ErrRewind (name : string) (c : cause)
    (* "Could not rewind localCopy %v back to start of file: %v" *)
| ErrKeyring (keyringPath : string) (c : cause).
    (* "Could not load artifact verification keyring from %v: %v" *)

(** The failure categories of the verification contract. *)
Inductive ErrorKind : Type :=
| UnsupportedScheme
| FetchFailure
| SignatureInvalid
| DigestMismatch
| ParseError
| KeyringLoadError
| IOError.

(** The Go errors are untyped; [kind] gives every error site its category:
    scheme rejections, failed fetches, signature checks, the digest
    comparison, the manifest parser, the key store, and everything that
    goes wrong with local files and streams. *)
Definition kind (e : error) : ErrorKind :=
  match e with
  | ErrSchemeManifest _ _ | ErrSchemeBuild _ => UnsupportedScheme
  | ErrManifestDownload _ _ | ErrManifestSigDownload _ _ | ErrSigFetch _ _ => FetchFailure
  | ErrArmorBody _ | ErrSignature _ => SignatureInvalid
  | ErrDigest _ _ => DigestMismatch
  | ErrUnmarshal _ => ParseError
  | ErrKeyring _ _ => KeyringLoadError
  | ErrTempDir _ | ErrReadFile _ | ErrReadLocalCopy _ | ErrSigRead _ _
  | ErrReadArtifact _ | ErrRewind _ _ => IOError
  end.

(** ** The world the verifiers run in *)

(** An open [os.File]: its name, its content, the read offset, and the
    error, if any, that reading or seeking it raises (a closed file, a
    pipe that cannot seek, a failing disk). *)
Record File := mkFile {
  name : string;
  data : bytes;
  offset : nat;
  read_fault : option cause;
  seek_fault : option cause
}.

Definition with_offset (f : File) (o : nat) : File :=
  mkFile (name f) (data f) o (read_fault f) (seek_fault f).

(** - [files]: the open files, by descriptor; a [os.File] argument is a
      descriptor, so that every holder of it sees the same offset;
    - [tmpfs]: the files under the temporary directories;
    - [tmp_fault]: the error, if any, that creating a temporary directory
      raises; [tmp_seq] numbers the directories created so far;
    - [fetched]: the requests made to the fetcher, oldest first, as
      (source URL, destination path);
    - [keyring_loads]: the paths the key store was asked to load, oldest
      first. *)
Record World := mkWorld {
  files : gmap nat File;
  tmpfs : gmap string bytes;
  tmp_fault : option cause;
  tmp_seq : nat;
  fetched : list (URL * string);
  keyring_loads : list string
}.

Definition set_files (fs : gmap nat File) (w : World) : World :=
  mkWorld fs (tmpfs w) (tmp_fault w) (tmp_seq w) (fetched w) (keyring_loads w).
Definition set_tmpfs (t : gmap string bytes) (w : World) : World :=
  mkWorld (files w) t (tmp_fault w) (tmp_seq w) (fetched w) (keyring_loads w).
Definition set_tmp_seq (n : nat) (w : World) : World :=
  mkWorld (files w) (tmpfs w) (tmp_fault w) n (fetched w) (keyring_loads w).
Definition set_fetched (l : list (URL * string)) (w : World) : World :=
  mkWorld (files w) (tmpfs w) (tmp_fault w) (tmp_seq w) l (keyring_loads w).
Definition set_keyring_loads (l : list string) (w : World) : World :=
  mkWorld (files w) (tmpfs w) (tmp_fault w) (tmp_seq w) (fetched w) l.

(** State and error: a Go function that returns an [error] and touches
    files.  What it did before failing stays done. *)
Definition M (E A : Type) : Type := World -> result E A * World.

#[global] Instance M_ret {E} : MRet (M E) := fun A a w => (Ok a, w).
#[global] Instance M_bind {E} : MBind (M E) := fun A B k m w =>
  match m w with
  | (Ok a, w') => k a w'
  | (Err e, w') => (Err e, w')
  end.

(** [if err != nil { return util.Errorf(..., err) }] *)
Definition on_err {E E' A} (f : E -> E') (m : M E A) : M E' A := fun w =>
  match m w with
  | (Ok a, w') => (Ok a, w')
  | (Err e, w') => (Err (f e), w')
  end.

(** A computation that does not touch the world. *)
Definition pure_result {E A} (r : result E A) : M E A := fun w => (r, w).

(** [defer cleanup]: [cleanup] runs when [body] returns, whatever it
    returns; its own result is dropped. *)
Definition defer {E E' A} (cleanup : M E' unit) (body : M E A) : M E A := fun w =>
  let '(r, w') := body w in (r, snd (cleanup w')).

(** *** Files *)

Definition EINVAL : cause := "invalid argument".

Inductive whence := SEEK_SET | SEEK_CUR | SEEK_END.

(** [Seek] of [os.File]: a descriptor that is not open is invalid. *)
Definition File_Seek (fd : nat) (off : Z) (wh : whence) : M cause Z := fun w =>
  match files w !! fd with
  | None => (Err EINVAL, w)
  | Some f =>
      match seek_fault f with
      | Some c => (Err c, w)
      | None =>
          let base := match wh with
                      | SEEK_SET => 0
                      | SEEK_CUR => Z.of_nat (offset f)
                      | SEEK_END => Z.of_nat (length (data f))
                      end%Z in
          let pos := (base + off)%Z in
          if (pos <? 0)%Z then (Err EINVAL, w)
          else (Ok pos, set_files (<[fd := with_offset f (Z.to_nat pos)]> (files w)) w)
      end
  end.

(** [Name] of [os.File]. *)
Definition File_Name (fd : nat) (w : World) : string :=
  match files w !! fd with
  | Some f => name f
  | None => ""
  end.

(** [ioutil.ReadAll] on an [os.File]: everything from the read offset to
    the end of the file; the offset ends at the end of the file, unless it
    was already past it. *)
Definition ioutil_ReadAll (fd : nat) : M cause bytes := fun w =>
  match files w !! fd with
  | None => (Err EINVAL, w)
  | Some f =>
      match read_fault f with
      | Some c => (Err c, w)
      | None =>
          (Ok (drop (offset f) (data f)),
           set_files (<[fd := with_offset f (offset f `max` length (data f))]> (files w)) w)
      end
  end.

(** *** The temporary file system *)

(** [ioutil.TempDir(dir, prefix)] with [dir = ""]: a new directory under
    the default one, its name made unique by a number. *)
Definition ioutil_TempDir (dir pfx : string) : M cause string := fun w =>
  match tmp_fault w with
  | Some c => (Err c, w)
  | None =>
      let base := if String.eqb dir "" then "/tmp" else dir in
      (Ok (base +:+ "/" +:+ pfx +:+ pretty (tmp_seq w)), set_tmp_seq (S (tmp_seq w)) w)
  end.

(** [filepath.Join] of a clean directory and a file name. *)
Definition filepath_Join (dir file : string) : string := dir +:+ "/" +:+ file.

(** [os.RemoveAll]: the path and everything below it. *)
Definition os_RemoveAll (path : string) : M cause unit := fun w =>
  (Ok tt,
   set_tmpfs (filter (fun kv => kv.1 ≠ path ∧ String.prefix (path +:+ "/") kv.1 = false)
                     (tmpfs w)) w).

Definition ENOENT : cause := "no such file or directory".

(** [ioutil.ReadFile]. *)
Definition ioutil_ReadFile (path : string) : M cause bytes := fun w =>
  match tmpfs w !! path with
  | Some b => (Ok b, w)
  | None => (Err ENOENT, w)
  end.

(** *** The fetcher *)

(** A [uri.Fetcher] is what it answers for every URL: the content of the
    remote object, or an error. *)
Definition Fetcher := URL -> result cause bytes.

(** Modelled from the spec: the interface [uri.Fetcher] and its
    implementations are not part of this package.  Its capability is
    [copyToLocal(sourceURL, destinationPath) -> success | error]: the
    remote object is copied to the destination path, or an error is
    reported and nothing is written.  Every request is logged. *)
Definition CopyLocal (f : Fetcher) (src : URL) (dst : string) : M cause unit := fun w =>
  let w' := set_fetched (fetched w ++ [(src, dst)]) w in
  match f src with
  | Ok content => (Ok tt, set_tmpfs (<[dst := content]> (tmpfs w')) w')
  | Err c => (Err c, w')
  end.

(** [logging.Logger]: held by the verifiers, never used by them. *)
Inductive Logger := mkLogger.

(** ** The collaborators of the package *)

(** [armor.Block]: of a decoded block only the body is read; [Body] is
    what [ioutil.ReadAll(block.Body)] returns. *)
Record Block := mkBlock { Body : result cause bytes }.

(** What the verifiers call and this file does not define: the key store
    and the signature check of the package ([LoadKeyring],
    [checkDetachedSignature]), [armor.Decode], and the YAML decoder, of
    which only the value under the key [artifact_sha] is looked at
    ([None] when the document has no such key). *)
Class Collaborators := {
  KeyRing : Type;
  Entity : Type;
  LoadKeyring : string -> result cause KeyRing;
  checkDetachedSignature : KeyRing -> bytes -> bytes -> result cause Entity;
  armor_Decode : bytes -> result cause Block;
  yaml_artifact_sha : bytes -> result cause (option string)
}.

Section Verifiers.

Context `{Collaborators}.

(** The call of [LoadKeyring], logged. *)
Definition LoadKeyring_io (path : string) : M cause KeyRing := fun w =>
  (LoadKeyring path, set_keyring_loads (keyring_loads w ++ [path]) w).

(** The struct the manifest is decoded into:
    [struct { ArtifactDigest string `yaml:"artifact_sha"` }]. *)
Record manifest := mkManifest { ArtifactDigest : string }.

(** [yaml.Unmarshal(in, &out)]: a key that the document does not have
    leaves its field as it was. *)
Definition yaml_Unmarshal (input : bytes) (out : manifest) : result cause manifest :=
  match yaml_artifact_sha input with
  | Err c => Err c
  | Ok None => Ok out
  | Ok (Some v) => Ok (mkManifest v)
  end.

(** The digest a manifest declares: the value under [artifact_sha], the
    empty string when the key is absent. *)
Definition declared_digest (manifestBytes : bytes) : result cause string :=
  match yaml_artifact_sha manifestBytes with
  | Ok (Some v) => Ok v
  | Ok None => Ok ""
  | Err c => Err c
  end.

Definition VerifyNone := "none".
Definition VerifyManifest := "manifest".
Definition VerifyBuild := "build".
Definition VerifyEither := "either".

(** [case "file", "gs", "http", "https"] *)
Definition recognized_scheme (s : string) : bool :=
  String.eqb s "file" || String.eqb s "gs" || String.eqb s "http" || String.eqb s "https".

(** The interface [ArtifactVerifier]. *)
Class ArtifactVerifier (V : Type) :=
  VerifyHoistArtifact : V -> nat -> URL -> M error unit.

(** *** nopVerifier *)

Inductive nopVerifier := mkNopVerifier.

Definition nopVerifier_VerifyHoistArtifact
    (n : nopVerifier) (localCopy : nat) (artifactLocation : URL) : M error unit :=
  mret tt.

Definition NopVerifier : nopVerifier := mkNopVerifier.

(** *** verifySigned *)

Definition verifySigned (keyring : KeyRing) (signedBytes signatureBytes : bytes)
  : result error unit :=
  (* permit an armored detached signature *)
  let unwrapped :=
    match armor_Decode signatureBytes with
    | Ok block =>
        match Body block with
        | Ok body => Ok body
        | Err c => Err (ErrArmorBody c)
        end
    | Err _ => Ok signatureBytes
    end in
  match unwrapped with
  | Err e => Err e
  | Ok signatureBytes' =>
      (* check that the manifest was adequately signed by our signer *)
      match checkDetachedSignature keyring signedBytes signatureBytes' with
      | Ok _ => Ok tt
      | Err c => Err (ErrSignature c)
      end
  end.

(** *** BuildManifestVerifier *)

Record BuildManifestVerifier := mkBuildManifestVerifier {
  bmv_keyring : KeyRing;
  bmv_fetcher : Fetcher;
  bmv_logger : Logger
}.

Definition NewBuildManifestVerifier
    (keyringPath : string) (fetcher : Fetcher) (logger : Logger)
  : M error BuildManifestVerifier :=
  keyring ← on_err (ErrKeyring keyringPath) (LoadKeyring_io keyringPath);
  mret (mkBuildManifestVerifier keyring fetcher logger).

Definition checkMatchingDigest
    (b : BuildManifestVerifier) (localCopy : nat) (manifestBytes : bytes) : M error unit :=
  realTarBytes ← on_err ErrReadLocalCopy (ioutil_ReadAll localCopy);
  let digestBytes := SHA256.Sum256 realTarBytes in
  let realDigest := hex_EncodeToString digestBytes in
  m ← pure_result
        match yaml_Unmarshal manifestBytes (mkManifest "") with
        | Ok m => Ok m
        | Err c => Err (ErrUnmarshal c)
        end;
  if String.eqb realDigest (ArtifactDigest m) then mret tt
  else pure_result (Err (ErrDigest realDigest (ArtifactDigest m))).

Definition BuildManifestVerifier_VerifyHoistArtifact
    (b : BuildManifestVerifier) (localCopy : nat) (artifactLocation : URL) : M error unit :=
  if recognized_scheme (Scheme artifactLocation) then
    dir ← on_err ErrTempDir (ioutil_TempDir "" "artifact_verification");
    defer (os_RemoveAll dir) (
      let manifestSrc :=
        with_Path artifactLocation (Path artifactLocation +:+ ".manifest") in
      let manifestDst := filepath_Join dir "manifest" in
      _ ← on_err (ErrManifestDownload artifactLocation)
            (CopyLocal (bmv_fetcher b) manifestSrc manifestDst);
      let signatureSrc := with_Path manifestSrc (Path manifestSrc +:+ ".sig") in
      let signatureDst := filepath_Join dir "signature" in
      _ ← on_err (ErrManifestSigDownload artifactLocation)
            (CopyLocal (bmv_fetcher b) signatureSrc signatureDst);
      manifestBytes ← on_err ErrReadFile (ioutil_ReadFile manifestDst);
      signatureBytes ← on_err ErrReadFile (ioutil_ReadFile signatureDst);
      _ ← pure_result (verifySigned (bmv_keyring b) manifestBytes signatureBytes);
      checkMatchingDigest b localCopy manifestBytes)
  else
    pure_result (Err (ErrSchemeManifest artifactLocation (Scheme artifactLocation))).

(** *** BuildVerifier *)

Record BuildVerifier := mkBuildVerifier {
  bv_keyring : KeyRing;
  bv_fetcher : Fetcher;
  bv_logger : Logger
}.

Definition NewBuildVerifier
    (keyringPath : string) (fetcher : Fetcher) (logger : Logger)
  : M error BuildVerifier :=
  keyring ← on_err (ErrKeyring keyringPath) (LoadKeyring_io keyringPath);
  mret (mkBuildVerifier keyring fetcher logger).

Definition BuildVerifier_VerifyHoistArtifact
    (b : BuildVerifier) (localCopy : nat) (artifactLocation : URL) : M error unit :=
  if recognized_scheme (Scheme artifactLocation) then
    dir ← on_err ErrTempDir (ioutil_TempDir "" "artifact_verification");
    defer (os_RemoveAll dir) (
      let sigURI := with_Path artifactLocation (Path artifactLocation +:+ ".sig") in
      let sigPath := filepath_Join dir "sig" in
      _ ← on_err (ErrSigFetch sigURI) (CopyLocal (bv_fetcher b) sigURI sigPath);
      sigData ← on_err (ErrSigRead sigPath) (ioutil_ReadFile sigPath);
      signedBytes ← on_err ErrReadArtifact (ioutil_ReadAll localCopy);
      pure_result (verifySigned (bv_keyring b) signedBytes sigData))
  else
    pure_result (Err (ErrSchemeBuild artifactLocation)).

(** *** CompositeVerifier *)

Record CompositeVerifier := mkCompositeVerifier {
  manVerifier : BuildManifestVerifier;
  buildVerifier : BuildVerifier
}.

(** The composite verifier executes verification for both the
    BuildManifestVerifier and the BuildVerifier.  Only one of the two
    needs to pass for verification to pass. *)
Definition NewCompositeVerifier
    (keyringPath : string) (fetcher : Fetcher) (logger : Logger)
  : M error CompositeVerifier :=
  manV ← NewBuildManifestVerifier keyringPath fetcher logger;
  buildV ← NewBuildVerifier keyringPath fetcher logger;
  mret (mkCompositeVerifier manV buildV).

(** Attempt manifest verification.  If it fails, fall back to the build
    verifier. *)
Definition CompositeVerifier_VerifyHoistArtifact
    (b : CompositeVerifier) (localCopy : nat) (artifactLocation : URL) : M error unit :=
  fun w =>
    match BuildManifestVerifier_VerifyHoistArtifact (manVerifier b) localCopy artifactLocation w with
    | (Err _, w1) =>
        match File_Seek localCopy 0 SEEK_SET w1 with
        | (Err c, w2) => (Err (ErrRewind (File_Name localCopy w2) c), w2)
        | (Ok _, w2) =>
            BuildVerifier_VerifyHoistArtifact (buildVerifier b) localCopy artifactLocation w2
        end
    | (Ok tt, w1) => (Ok tt, w1)
    end.

#[global] Instance nopVerifier_ArtifactVerifier : ArtifactVerifier nopVerifier :=
  nopVerifier_VerifyHoistArtifact.
#[global] Instance BuildManifestVerifier_ArtifactVerifier
  : ArtifactVerifier BuildManifestVerifier := BuildManifestVerifier_VerifyHoistArtifact.
#[global] Instance BuildVerifier_ArtifactVerifier
  : ArtifactVerifier BuildVerifier := BuildVerifier_VerifyHoistArtifact.
#[global] Instance CompositeVerifier_ArtifactVerifier
  : ArtifactVerifier CompositeVerifier := CompositeVerifier_VerifyHoistArtifact.

End Verifiers.


(** ** Companion locations and intermediate worlds

    Written out field by field, for the statements below. *)

(** [<base>.manifest] *)
Definition manifestURL (loc : URL) : URL :=
  mkURL (Scheme loc) (Opaque loc) (User loc) (Host loc)
        (Path loc +:+ ".manifest") (RawPath loc) (RawQuery loc) (Fragment loc).

(** [<base>.manifest.sig] *)
Definition manifestSigURL (loc : URL) : URL :=
  mkURL (Scheme loc) (Opaque loc) (User loc) (Host loc)
        (Path loc +:+ ".manifest.sig") (RawPath loc) (RawQuery loc) (Fragment loc).

(** [<base>.sig] *)
Definition sigURL (loc : URL) : URL :=
  mkURL (Scheme loc) (Opaque loc) (User loc) (Host loc)
        (Path loc +:+ ".sig") (RawPath loc) (RawQuery loc) (Fragment loc).

(** [u] is [loc] with [suffix] appended to its path and nothing else
    changed. *)
Definition companion (loc : URL) (suffix : string) (u : URL) : Prop :=
  Scheme u = Scheme loc /\ Opaque u = Opaque loc /\ User u = User loc /\
  Host u = Host loc /\ Path u = Path loc +:+ suffix /\ RawPath u = RawPath loc /\
  RawQuery u = RawQuery loc /\ Fragment u = Fragment loc.

(** The directory that the next [ioutil.TempDir] creates. *)
Definition tempdir_name (w : World) : string :=
  "/tmp/artifact_verification" +:+ pretty (tmp_seq w).

(** The world once the manifest [m] and its signature [s] are downloaded. *)
Definition fetched_manifest (loc : URL) (m s : bytes) (w : World) : World :=
  let dir := tempdir_name w in
  mkWorld (files w)
    (<[filepath_Join dir "signature" := s]> (<[filepath_Join dir "manifest" := m]> (tmpfs w)))
    (tmp_fault w) (S (tmp_seq w))
    (fetched w ++ [(manifestURL loc, filepath_Join dir "manifest");
                   (manifestSigURL loc, filepath_Join dir "signature")])
    (keyring_loads w).

(** The world once the direct signature [s] is downloaded. *)
Definition fetched_signature (loc : URL) (s : bytes) (w : World) : World :=
  let dir := tempdir_name w in
  mkWorld (files w) (<[filepath_Join dir "sig" := s]> (tmpfs w))
    (tmp_fault w) (S (tmp_seq w))
    (fetched w ++ [(sigURL loc, filepath_Join dir "sig")])
    (keyring_loads w).

(** The world once the temporary directory [dir] is removed. *)
Definition cleaned (dir : string) (w : World) : World := snd (os_RemoveAll dir w).

(** The file [f], open as [fd], read to its end. *)
Definition read_to_end (fd : nat) (f : File) (w : World) : World :=
  set_files (<[fd := with_offset f (offset f `max` length (data f))]> (files w)) w.

(** The file [f], open as [fd], back at offset 0. *)
Definition rewound (fd : nat) (f : File) (w : World) : World :=
  set_files (<[fd := with_offset f 0]> (files w)) w.

(** The requests made to the fetcher between the worlds [w] and [w']. *)
Definition asked (w w' : World) : list (URL * string) :=
  drop (length (fetched w)) (fetched w').

(** ** A small build pipeline to run the verifiers on *)

Module Fixture.

Definition bytes_eqb (a b : bytes) : bool :=
  String.eqb (string_of_list_byte a) (string_of_list_byte b).

Fixpoint strip_prefix (p l : bytes) : option bytes :=
  match p, l with
  | [], _ => Some l
  | x :: p', y :: l' => if Byte.eqb x y then strip_prefix p' l' else None
  | _ :: _, [] => None
  end.

(** A signer's signature over a payload: the signer's name, then the
    SHA-256 digest of the payload. *)
Definition sign (signer : string) (payload : bytes) : bytes :=
  bytes_of_string signer ++ SHA256.Sum256 payload.

Definition check (keyring : list string) (payload signature : bytes)
  : result cause string :=
  match List.find (fun signer => bytes_eqb (sign signer payload) signature) keyring with
  | Some signer => Ok signer
  | None => Err "openpgp: signature made by unknown entity"
  end.

Definition armor_header : bytes := bytes_of_string "-----BEGIN PGP SIGNATURE-----".

Definition armored (signature : bytes) : bytes := armor_header ++ signature.

Definition decode (input : bytes) : result cause Block :=
  match strip_prefix armor_header input with
  | Some body => Ok (mkBlock (Ok body))
  | None => Err "EOF"
  end.

Definition yaml_key : bytes := bytes_of_string "artifact_sha: ".

Definition parse (input : bytes) : result cause (option string) :=
  match strip_prefix yaml_key input with
  | Some v => Ok (Some (string_of_list_byte v))
  | None =>
      if bytes_eqb input (bytes_of_string "{}") then Ok None
      else Err "yaml: unmarshal errors"
  end.

Definition keyring_path : string := "/etc/p2/keyring".

Definition load (path : string) : result cause (list string) :=
  if String.eqb path keyring_path then Ok ["build"]
  else Err "open: no such file or directory".

#[global] Instance collaborators : Collaborators := {|
  KeyRing := list string;
  Entity := string;
  LoadKeyring := load;
  checkDetachedSignature := check;
  armor_Decode := decode;
  yaml_artifact_sha := parse
|}.

(** The artifact, its location, and what the remote side serves. *)
Definition artifact : bytes := bytes_of_string "abc".

Definition location : URL :=
  mkURL "https" "" None "foo.bar.baz" "/artifacts/myapp_abc123.tar.gz" "" "v=1" "top".

Definition good_manifest : bytes :=
  yaml_key ++ bytes_of_string
    "ba7816bf8f01cfea414140de5dae2223b00361a396177a9cb410ff61f20015ad".

(** A manifest that declares the digest of the empty artifact. *)
Definition stale_manifest : bytes :=
  yaml_key ++ bytes_of_string
    "e3b0c44298fc1c149afbf4c8996fb92427ae41e4649b934ca495991b7852b855".

(** A manifest without the key [artifact_sha]. *)
Definition empty_manifest : bytes := bytes_of_string "{}".

(** Serves the manifest signed by [manifest_signer] and the artifact's
    signature made by [artifact_signer]. *)
Definition serve (manifest : bytes) (manifest_signer artifact_signer : string) : Fetcher :=
  fun u =>
    if String.eqb (Path u) "/artifacts/myapp_abc123.tar.gz.manifest" then Ok manifest
    else if String.eqb (Path u) "/artifacts/myapp_abc123.tar.gz.manifest.sig"
    then Ok (sign manifest_signer manifest)
    else if String.eqb (Path u) "/artifacts/myapp_abc123.tar.gz.sig"
    then Ok (armored (sign artifact_signer artifact))
    else Err "404 Not Found".

Definition local_file (seek read : option cause) : File :=
  mkFile "/tmp/myapp_abc123.tar.gz" artifact 0 read seek.

(** A world with the artifact open as descriptor 3. *)
Definition world (f : File) : World :=
  mkWorld {[ 3 := f ]} ∅ None 0 [] [].

Definition ESPIPE : cause := "illegal seek".
Definition EBADF : cause := "bad file descriptor".

Definition ftp_location : URL :=
  mkURL "ftp" "" None "foo.bar.baz" "/artifacts/myapp_abc123.tar.gz" "" "" "".

Definition manV (fetcher : Fetcher) : BuildManifestVerifier :=
  mkBuildManifestVerifier ["build"] fetcher mkLogger.
Definition buildV (fetcher : Fetcher) : BuildVerifier :=
  mkBuildVerifier ["build"] fetcher mkLogger.
Definition composite (fetcher : Fetcher) : CompositeVerifier :=
  mkCompositeVerifier (manV fetcher) (buildV fetcher).

End Fixture.
(** ** Further notions: what a run leaves behind, and the scheduling tool *)

(** Everything of an open file but its read offset. *)
Definition File_content (f : File) : string * bytes * option cause * option cause :=
  (name f, data f, read_fault f, seek_fault f).

(** Between [w] and [w'] no file was opened, closed or rewritten, and only
    the file open as [fd] may have a new read offset. *)
Definition only_offset_moved (fd : nat) (w w' : World) : Prop :=
  forall fd',
    File_content <$> files w' !! fd' = File_content <$> files w !! fd' /\
    (fd' <> fd -> files w' !! fd' = files w !! fd').

(** [encoding/hex]: [fromHexChar] and [hex.DecodeString], the inverse of
    the rendering ([None] for an odd length or a character that is not a
    hexadecimal digit). *)
Definition fromHexChar (c : ascii) : option N :=
  let n := N_of_ascii c in
  if ((48 <=? n) && (n <=? 57))%N then Some (n - 48)%N
  else if ((97 <=? n) && (n <=? 102))%N then Some (n - 97 + 10)%N
  else if ((65 <=? n) && (n <=? 70))%N then Some (n - 65 + 10)%N
  else None.

Fixpoint hex_DecodeString (s : string) : option bytes :=
  match s with
  | EmptyString => Some []
  | String _ EmptyString => None
  | String c1 (String c2 rest) =>
      match fromHexChar c1, fromHexChar c2, hex_DecodeString rest with
      | Some a, Some b, Some tail => Some (byte_of_N (N.lor (N.shiftl a 4) b) :: tail)
      | _, _, _ => None
      end
  end.

(** A path that [os.RemoveAll dir] leaves in place. *)
Definition outside (dir path : string) : Prop :=
  path <> dir /\ String.prefix (dir +:+ "/") path = false.

(** ** bin/p2-schedule

    The scheduling tool, from the point where [kingpin.Parse] has filled
    in the manifests given as arguments and the value of [--node]. *)

Module Schedule.

(** What the tool sends to standard error: text written there directly, an
    entry of the [log] package (the message; [log] puts the date and time
    before it and a line end after it), or the usage text of kingpin. *)
Inductive line : Type :=
| Written (text : string)
| Logged (message : string)
| Usage.

(** How the process ends: [main] returns, or [log.Fatal...] exits with a
    status. *)
Inductive status : Type :=
| Returned
| Exited (code : nat).

(** The packages [pods] and [kp] and the host: a pod manifest and its id,
    the intent store, the key of a pod in it, and how long a write took. *)
Class Environment := {
  PodManifest : Type;
  Store : Type;
  Duration : Type;
  PodManifest_ID : PodManifest -> string;
  PodManifestFromPath : string -> result cause PodManifest;
  NewStore : Store;
  SetPod : Store -> string -> PodManifest -> result cause Duration * Store;
  IntentPath : string -> string -> string;
  Duration_String : Duration -> string
}.

(** The values [kingpin.Parse] leaves in [manifests] and [nodeName]. *)
Record Args := mkArgs {
  manifests : list string;
  nodeName : string
}.

(** The process: what went to standard error, oldest first, and the
    intent store. *)
Record Proc `{Environment} := mkProc {
  stderr : list line;
  store : Store
}.
Arguments mkProc {_} stderr store.

Definition LF : string := String (ascii_of_nat 10) "".

Section Main.

Context `{Environment}.

(** The body of [for _, manifestPath := range *manifests]. *)
Definition schedule_one (node : string) (p : Proc) (manifestPath : string) : Proc :=
  match PodManifestFromPath manifestPath with
  | Err err =>
      mkProc (stderr p ++ [Written ("Could not read manifest at " +:+ manifestPath +:+
                                     ": " +:+ err +:+ LF)])%list
             (store p)
  | Ok manifest =>
      match SetPod (store p) (IntentPath node (PodManifest_ID manifest)) manifest with
      | (Err err, store') =>
          mkProc (stderr p ++ [Written ("Could not write manifest " +:+
                                         PodManifest_ID manifest +:+
                                         " to intent store: " +:+ err +:+ LF)])%list
                 store'
      | (Ok duration, store') =>
          mkProc (stderr p ++ [Logged ("Scheduling " +:+ PodManifest_ID manifest +:+
                                        " took " +:+ Duration_String duration)])%list
                 store'
      end
  end.

(** [main], given what [os.Hostname] returns. *)
Definition main (args : Args) (os_Hostname : result cause string) : status * Proc :=
  let p := mkProc [] NewStore in
  let node :=
    if String.eqb (nodeName args) "" then os_Hostname else Ok (nodeName args) in
  match node with
  | Err err =>
      (Exited 1,
       mkProc (stderr p ++ [Logged ("Could not get the hostname to do scheduling: " +:+ err)])%list
              (store p))
  | Ok node =>
      match manifests args with
      | [] => (Exited 1, mkProc (stderr p ++ [Usage; Logged "No manifests given"])%list (store p))
      | _ :: _ => (Returned, fold_left (schedule_one node) (manifests args) p)
      end
  end.

(** The line that reports on one manifest. *)
Definition reports (manifestPath : string) (l : line) : Prop :=
  match PodManifestFromPath manifestPath with
  | Err err =>
      l = Written ("Could not read manifest at " +:+ manifestPath +:+ ": " +:+ err +:+ LF)
  | Ok manifest =>
      (exists err, l = Written ("Could not write manifest " +:+ PodManifest_ID manifest +:+
                                " to intent store: " +:+ err +:+ LF)) \/
      (exists duration, l = Logged ("Scheduling " +:+ PodManifest_ID manifest +:+
                                    " took " +:+ Duration_String duration))
  end.

(** The manifests that can be read, in the order given. *)
Definition readable (paths : list string) : list PodManifest :=
  omap (fun path => match PodManifestFromPath path with
                    | Ok manifest => Some manifest
                    | Err _ => None
                    end) paths.

(** One write to the intent store, its outcome dropped. *)
Definition write_pod (node : string) (s : Store) (manifest : PodManifest) : Store :=
  snd (SetPod s (IntentPath node (PodManifest_ID manifest)) manifest).

End Main.

(** A store that is a list of keys and pod ids; pods are read from under
    [/pods/], and the pod [broken] cannot be written. *)
#[global] Instance demo : Environment := {|
  PodManifest := string;
  Store := list (string * string);
  Duration := nat;
  PodManifest_ID := fun manifest => manifest;
  PodManifestFromPath := fun path =>
    if String.prefix "/pods/" path
    then Ok (String.substring 6 (String.length path - 6) path)
    else Err "no such file or directory";
  NewStore := [];
  SetPod := fun s key manifest =>
    if String.eqb manifest "broken" then (Err "consul: no leader", s)
    else (Ok (String.length key), (s ++ [(key, manifest)])%list);
  IntentPath := fun node id => "intent/" +:+ node +:+ "/" +:+ id;
  Duration_String := fun d => pretty d +:+ "ms"
|}.

End Schedule.

Example primes_64 : length SHA256.primes = 64 /\ last SHA256.primes = Some 311.
Proof. split; reflexivity. Qed.

Example K_first_last :
  SHA256.K !! 0 = Some 0x428a2f98%N /\ SHA256.K !! 63 = Some 0xc67178f2%N /\
  length SHA256.K = 64.
Proof. repeat split. Qed.

Example init_first_last :
  SHA256.ha SHA256.init = 0x6a09e667%N /\ SHA256.hh SHA256.init = 0x5be0cd19%N.
Proof. split; reflexivity. Qed.

Example sha256_empty :
  hex_EncodeToString (SHA256.Sum256 []) =
  "e3b0c44298fc1c149afbf4c8996fb92427ae41e4649b934ca495991b7852b855".
Proof. vm_compute. reflexivity. Qed.

Example sha256_abc :
  hex_EncodeToString (SHA256.Sum256 (bytes_of_string "abc")) =
  "ba7816bf8f01cfea414140de5dae2223b00361a396177a9cb410ff61f20015ad".
Proof. vm_compute. reflexivity. Qed.

Example sha256_two_blocks :
  hex_EncodeToString (SHA256.Sum256 (bytes_of_string
    "abcdbcdecdefdefgefghfghighijhijkijkljklmklmnlmnomnopnopq")) =
  "248d6a61d20638b8e5c026930c3e6039a33ce45964ff2167f6ecedd419db06c1".
Proof. vm_compute. reflexivity. Qed.


Example run_manifest_ok :
  fst (BuildManifestVerifier_VerifyHoistArtifact
         (Fixture.manV (Fixture.serve Fixture.good_manifest "build" "build"))
         3 Fixture.location (Fixture.world (Fixture.local_file None None))) = Ok tt.
Proof. vm_compute. reflexivity. Qed.

Example run_composite_fallback :
  fst (CompositeVerifier_VerifyHoistArtifact
         (Fixture.composite (Fixture.serve Fixture.good_manifest "mallory" "build"))
         3 Fixture.location (Fixture.world (Fixture.local_file None None))) = Ok tt.
Proof. vm_compute. reflexivity. Qed.

Example run_composite_untrusted :
  fst (CompositeVerifier_VerifyHoistArtifact
         (Fixture.composite (Fixture.serve Fixture.good_manifest "mallory" "mallory"))
         3 Fixture.location (Fixture.world (Fixture.local_file None None))) =
  Err (ErrSignature "openpgp: signature made by unknown entity").
Proof. vm_compute. reflexivity. Qed.
(** ** Properties of the rendering and of the digest *)

Lemma hexdigit_high_lower (v : byte) :
  is_lower_hex_char (hexdigit (N.shiftr (Byte.to_N v) 4)) = true.
Proof. destruct v; vm_compute; reflexivity. Qed.

Lemma hexdigit_low_lower (v : byte) :
  is_lower_hex_char (hexdigit (N.land (Byte.to_N v) 15)) = true.
Proof. destruct v; vm_compute; reflexivity. Qed.

Lemma hex_EncodeToString_lower (src : bytes) :
  is_lower_hex (hex_EncodeToString src) = true.
Proof.
  induction src as [|v rest IH]; simpl; [reflexivity|].
  rewrite hexdigit_high_lower, hexdigit_low_lower, IH. reflexivity.
Qed.

Lemma hex_EncodeToString_length (src : bytes) :
  String.length (hex_EncodeToString src) = 2 * length src.
Proof. induction src as [|v rest IH]; simpl; [reflexivity|]. rewrite IH. lia. Qed.

Lemma be_bytes_length (width : nat) (x : N) : length (SHA256.be_bytes width x) = width.
Proof. unfold SHA256.be_bytes. rewrite length_map, length_rev, length_seq. reflexivity. Qed.

(** [Sum256] returns a [[32]byte]. *)
Lemma Sum256_length (input : bytes) : length (SHA256.Sum256 input) = 32.
Proof.
  unfold SHA256.Sum256, SHA256.digest.
  rewrite !length_app, !be_bytes_length. reflexivity.
Qed.

Lemma realDigest_length (input : bytes) :
  String.length (hex_EncodeToString (SHA256.Sum256 input)) = 64.
Proof. rewrite hex_EncodeToString_length, Sum256_length. reflexivity. Qed.

Lemma realDigest_nonempty (input : bytes) :
  hex_EncodeToString (SHA256.Sum256 input) ≠ "".
Proof.
  intros Heq. pose proof (realDigest_length input) as Hlen.
  rewrite Heq in Hlen. discriminate Hlen.
Qed.

(** ** Paths *)

Lemma string_app_inv_head (d a b : string) : d +:+ a = d +:+ b -> a = b.
Proof. induction d as [|c d IH]; simpl; intros Heq; [exact Heq|]. injection Heq. exact IH. Qed.

Lemma string_app_length (a b : string) :
  String.length (a +:+ b) = String.length a + String.length b.
Proof. induction a as [|c a IH]; simpl; [reflexivity|]. rewrite IH. reflexivity. Qed.

Lemma manifestDst_ne_signatureDst (dir : string) :
  filepath_Join dir "manifest" ≠ filepath_Join dir "signature".
Proof. unfold filepath_Join. intros Heq. apply string_app_inv_head in Heq. discriminate Heq. Qed.

(** The three companion paths of one artifact are pairwise distinct. *)
Lemma sig_path_ne_manifest_path (p : string) : p +:+ ".sig" ≠ p +:+ ".manifest".
Proof. intros Heq. apply string_app_inv_head in Heq. discriminate Heq. Qed.

Lemma sig_path_ne_manifest_sig_path (p : string) :
  p +:+ ".sig" ≠ (p +:+ ".manifest") +:+ ".sig".
Proof.
  intros Heq. apply (f_equal String.length) in Heq.
  rewrite !string_app_length in Heq. simpl in Heq. lia.
Qed.

Lemma string_app_assoc (a b c : string) : (a +:+ b) +:+ c = a +:+ (b +:+ c).
Proof.
  induction a as [|x a IH]; [reflexivity|].
  change (String x ((a +:+ b) +:+ c) = String x (a +:+ (b +:+ c))).
  f_equal. exact IH.
Qed.

Lemma manifestSrc_eq (loc : URL) :
  with_Path loc (Path loc +:+ ".manifest") = manifestURL loc.
Proof. reflexivity. Qed.

Lemma signatureSrc_eq (loc : URL) :
  with_Path (with_Path loc (Path loc +:+ ".manifest"))
            (Path (with_Path loc (Path loc +:+ ".manifest")) +:+ ".sig") = manifestSigURL loc.
Proof. unfold with_Path, manifestSigURL. simpl. rewrite string_app_assoc. reflexivity. Qed.

Lemma sigURI_eq (loc : URL) : with_Path loc (Path loc +:+ ".sig") = sigURL loc.
Proof. reflexivity. Qed.

(** ** How the verifiers run *)

Ltac run_io :=
  unfold mbind, M_bind, mret, M_ret, on_err, defer, pure_result,
    ioutil_TempDir, CopyLocal, ioutil_ReadFile, ioutil_ReadAll, os_RemoveAll,
    fetched_manifest, fetched_signature, cleaned, read_to_end, rewound, tempdir_name,
    set_files, set_tmpfs, set_fetched, set_tmp_seq.

Lemma files_cleaned (dir : string) (w : World) : files (cleaned dir w) = files w.
Proof. reflexivity. Qed.

Lemma fetched_cleaned (dir : string) (w : World) : fetched (cleaned dir w) = fetched w.
Proof. reflexivity. Qed.

Section Properties.

Context `{Collaborators}.

Lemma verifySigned_kind keyring signedBytes signatureBytes e :
  verifySigned keyring signedBytes signatureBytes = Err e -> kind e = SignatureInvalid.
Proof.
  unfold verifySigned. intros Hv.
  destruct (armor_Decode signatureBytes) as [block|c].
  - destruct (Body block) as [body|c].
    + destruct (checkDetachedSignature keyring signedBytes body); inversion Hv; reflexivity.
    + inversion Hv; reflexivity.
  - destruct (checkDetachedSignature keyring signedBytes signatureBytes);
      inversion Hv; reflexivity.
Qed.

(** *** The digest check *)

Lemma checkMatchingDigest_run b localCopy manifestBytes w f :
  files w !! localCopy = Some f ->
  read_fault f = None ->
  let realDigest := hex_EncodeToString (SHA256.Sum256 (drop (offset f) (data f))) in
  checkMatchingDigest b localCopy manifestBytes w =
    (match declared_digest manifestBytes with
     | Err c => Err (ErrUnmarshal c)
     | Ok d => if String.eqb realDigest d then Ok tt else Err (ErrDigest realDigest d)
     end, read_to_end localCopy f w).
Proof.
  intros Hf Hr realDigest. unfold checkMatchingDigest, yaml_Unmarshal, declared_digest.
  run_io. rewrite Hf, Hr. cbv beta iota. fold realDigest.
  destruct (yaml_artifact_sha manifestBytes) as [[v|]|c]; cbv beta iota;
    try (unfold ArtifactDigest; destruct (String.eqb realDigest _)); reflexivity.
Qed.

Lemma checkMatchingDigest_read_fault b localCopy manifestBytes w f c :
  files w !! localCopy = Some f ->
  read_fault f = Some c ->
  checkMatchingDigest b localCopy manifestBytes w = (Err (ErrReadLocalCopy c), w).
Proof.
  intros Hf Hr. unfold checkMatchingDigest. run_io. rewrite Hf, Hr. reflexivity.
Qed.

Lemma checkMatchingDigest_not_open b localCopy manifestBytes w :
  files w !! localCopy = None ->
  checkMatchingDigest b localCopy manifestBytes w = (Err (ErrReadLocalCopy EINVAL), w).
Proof.
  intros Hf. unfold checkMatchingDigest. run_io. rewrite Hf. reflexivity.
Qed.

Lemma checkMatchingDigest_fetched b localCopy manifestBytes w :
  fetched (snd (checkMatchingDigest b localCopy manifestBytes w)) = fetched w.
Proof.
  destruct (files w !! localCopy) as [f|] eqn:Hf.
  - destruct (read_fault f) as [c|] eqn:Hr.
    + erewrite checkMatchingDigest_read_fault by eassumption. reflexivity.
    + erewrite checkMatchingDigest_run by eassumption. reflexivity.
  - rewrite checkMatchingDigest_not_open by assumption. reflexivity.
Qed.

(** *** BuildManifestVerifier, stage by stage *)

Lemma Man_unrecognized b localCopy loc w :
  recognized_scheme (Scheme loc) = false ->
  BuildManifestVerifier_VerifyHoistArtifact b localCopy loc w =
    (Err (ErrSchemeManifest loc (Scheme loc)), w).
Proof. intros Hs. unfold BuildManifestVerifier_VerifyHoistArtifact. rewrite Hs. reflexivity. Qed.

Lemma Man_tempdir_fault b localCopy loc w c :
  recognized_scheme (Scheme loc) = true ->
  tmp_fault w = Some c ->
  BuildManifestVerifier_VerifyHoistArtifact b localCopy loc w = (Err (ErrTempDir c), w).
Proof.
  intros Hs Ht. unfold BuildManifestVerifier_VerifyHoistArtifact. rewrite Hs.
  run_io. rewrite Ht. reflexivity.
Qed.

Lemma Man_manifest_fetch_fails b localCopy loc w c :
  recognized_scheme (Scheme loc) = true ->
  tmp_fault w = None ->
  bmv_fetcher b (manifestURL loc) = Err c ->
  BuildManifestVerifier_VerifyHoistArtifact b localCopy loc w =
    (Err (ErrManifestDownload loc c),
     cleaned (tempdir_name w)
       (set_fetched (fetched w ++ [(manifestURL loc, filepath_Join (tempdir_name w) "manifest")])
          (set_tmp_seq (S (tmp_seq w)) w))).
Proof.
  intros Hs Ht Hm. unfold BuildManifestVerifier_VerifyHoistArtifact.
  rewrite Hs, manifestSrc_eq.
  destruct w as [fs t tf n fl kl]; simpl in Ht; subst tf.
  run_io. simpl. rewrite Hm. reflexivity.
Qed.

Lemma Man_signature_fetch_fails b localCopy loc w m c :
  recognized_scheme (Scheme loc) = true ->
  tmp_fault w = None ->
  bmv_fetcher b (manifestURL loc) = Ok m ->
  bmv_fetcher b (manifestSigURL loc) = Err c ->
  BuildManifestVerifier_VerifyHoistArtifact b localCopy loc w =
    (Err (ErrManifestSigDownload loc c),
     cleaned (tempdir_name w)
       (set_fetched (fetched w ++ [(manifestURL loc, filepath_Join (tempdir_name w) "manifest");
                                   (manifestSigURL loc, filepath_Join (tempdir_name w) "signature")])
          (set_tmpfs (<[filepath_Join (tempdir_name w) "manifest" := m]> (tmpfs w))
             (set_tmp_seq (S (tmp_seq w)) w)))).
Proof.
  intros Hs Ht Hm Hsig. unfold BuildManifestVerifier_VerifyHoistArtifact.
  rewrite Hs, signatureSrc_eq, manifestSrc_eq.
  destruct w as [fs t tf n fl kl]; simpl in Ht; subst tf.
  run_io. simpl. rewrite Hm. simpl. rewrite Hsig. simpl. rewrite <- app_assoc. reflexivity.
Qed.

Lemma Man_run b localCopy loc w m s :
  recognized_scheme (Scheme loc) = true ->
  tmp_fault w = None ->
  bmv_fetcher b (manifestURL loc) = Ok m ->
  bmv_fetcher b (manifestSigURL loc) = Ok s ->
  BuildManifestVerifier_VerifyHoistArtifact b localCopy loc w =
    match verifySigned (bmv_keyring b) m s with
    | Err e => (Err e, cleaned (tempdir_name w) (fetched_manifest loc m s w))
    | Ok _ =>
        let '(r, w') := checkMatchingDigest b localCopy m (fetched_manifest loc m s w) in
        (r, cleaned (tempdir_name w) w')
    end.
Proof.
  intros Hs Ht Hm Hsig. unfold BuildManifestVerifier_VerifyHoistArtifact.
  rewrite Hs, signatureSrc_eq, manifestSrc_eq.
  destruct w as [fs t tf n fl kl]; simpl in Ht; subst tf.
  run_io. simpl. rewrite Hm. simpl. rewrite Hsig. simpl.
  rewrite lookup_insert_ne by (apply not_eq_sym, manifestDst_ne_signatureDst).
  rewrite lookup_insert_eq, <- app_assoc. simpl.
  rewrite lookup_insert_eq. simpl.
  destruct (verifySigned (bmv_keyring b) m s) as [[]|e]; reflexivity.
Qed.

(** *** BuildVerifier, stage by stage *)

Lemma Build_unrecognized b localCopy loc w :
  recognized_scheme (Scheme loc) = false ->
  BuildVerifier_VerifyHoistArtifact b localCopy loc w = (Err (ErrSchemeBuild loc), w).
Proof. intros Hs. unfold BuildVerifier_VerifyHoistArtifact. rewrite Hs. reflexivity. Qed.

Lemma Build_tempdir_fault b localCopy loc w c :
  recognized_scheme (Scheme loc) = true ->
  tmp_fault w = Some c ->
  BuildVerifier_VerifyHoistArtifact b localCopy loc w = (Err (ErrTempDir c), w).
Proof.
  intros Hs Ht. unfold BuildVerifier_VerifyHoistArtifact. rewrite Hs.
  run_io. rewrite Ht. reflexivity.
Qed.

Lemma Build_fetch_fails b localCopy loc w c :
  recognized_scheme (Scheme loc) = true ->
  tmp_fault w = None ->
  bv_fetcher b (sigURL loc) = Err c ->
  BuildVerifier_VerifyHoistArtifact b localCopy loc w =
    (Err (ErrSigFetch (sigURL loc) c),
     cleaned (tempdir_name w)
       (set_fetched (fetched w ++ [(sigURL loc, filepath_Join (tempdir_name w) "sig")])
          (set_tmp_seq (S (tmp_seq w)) w))).
Proof.
  intros Hs Ht Hf. unfold BuildVerifier_VerifyHoistArtifact.
  rewrite Hs, sigURI_eq.
  destruct w as [fs t tf n fl kl]; simpl in Ht; subst tf.
  run_io. simpl. rewrite Hf. reflexivity.
Qed.

Lemma Build_run b localCopy loc w s :
  recognized_scheme (Scheme loc) = true ->
  tmp_fault w = None ->
  bv_fetcher b (sigURL loc) = Ok s ->
  BuildVerifier_VerifyHoistArtifact b localCopy loc w =
    match files w !! localCopy with
    | None => (Err (ErrReadArtifact EINVAL), cleaned (tempdir_name w) (fetched_signature loc s w))
    | Some f =>
        match read_fault f with
        | Some c =>
            (Err (ErrReadArtifact c), cleaned (tempdir_name w) (fetched_signature loc s w))
        | None =>
            (verifySigned (bv_keyring b) (drop (offset f) (data f)) s,
             cleaned (tempdir_name w) (read_to_end localCopy f (fetched_signature loc s w)))
        end
    end.
Proof.
  intros Hs Ht Hf. unfold BuildVerifier_VerifyHoistArtifact.
  rewrite Hs, sigURI_eq.
  destruct w as [fs t tf n fl kl]; simpl in Ht; subst tf.
  run_io. simpl. rewrite Hf. simpl. rewrite lookup_insert_eq. simpl.
  destruct (fs !! localCopy) as [f|]; [|reflexivity].
  destruct (read_fault f) as [c|]; [reflexivity|].
  destruct (verifySigned (bv_keyring b) (drop (offset f) (data f)) s); reflexivity.
Qed.


End Properties.

Section Inversion.

Context `{Collaborators}.

Lemma checkMatchingDigest_success_inv b localCopy manifestBytes w w' :
  checkMatchingDigest b localCopy manifestBytes w = (Ok tt, w') ->
  exists f,
    files w !! localCopy = Some f /\ read_fault f = None /\
    declared_digest manifestBytes =
      Ok (hex_EncodeToString (SHA256.Sum256 (drop (offset f) (data f)))) /\
    w' = read_to_end localCopy f w.
Proof.
  intros Hrun.
  destruct (files w !! localCopy) as [f|] eqn:Hf.
  - destruct (read_fault f) as [c|] eqn:Hr.
    + rewrite (checkMatchingDigest_read_fault _ _ _ _ _ _ Hf Hr) in Hrun. discriminate Hrun.
    + rewrite (checkMatchingDigest_run _ _ _ _ _ Hf Hr) in Hrun.
      cbv zeta in Hrun. exists f.
      destruct (declared_digest manifestBytes) as [d|c]; [|discriminate Hrun].
      destruct (String.eqb _ d) eqn:Heq; [|discriminate Hrun].
      apply String.eqb_eq in Heq. subst d.
      inversion Hrun. repeat split; assumption || reflexivity.
  - rewrite (checkMatchingDigest_not_open _ _ _ _ Hf) in Hrun. discriminate Hrun.
Qed.

Lemma Man_success_inv b localCopy loc w w1 :
  BuildManifestVerifier_VerifyHoistArtifact b localCopy loc w = (Ok tt, w1) ->
  exists m s f,
    recognized_scheme (Scheme loc) = true /\ tmp_fault w = None /\
    bmv_fetcher b (manifestURL loc) = Ok m /\
    bmv_fetcher b (manifestSigURL loc) = Ok s /\
    verifySigned (bmv_keyring b) m s = Ok tt /\
    files w !! localCopy = Some f /\ read_fault f = None /\
    declared_digest m = Ok (hex_EncodeToString (SHA256.Sum256 (drop (offset f) (data f)))) /\
    w1 = cleaned (tempdir_name w) (read_to_end localCopy f (fetched_manifest loc m s w)).
Proof.
  intros Hrun.
  destruct (recognized_scheme (Scheme loc)) eqn:Hs;
    [|rewrite (Man_unrecognized _ _ _ _ Hs) in Hrun; discriminate Hrun].
  destruct (tmp_fault w) as [c|] eqn:Ht;
    [rewrite (Man_tempdir_fault _ _ _ _ _ Hs Ht) in Hrun; discriminate Hrun|].
  destruct (bmv_fetcher b (manifestURL loc)) as [m|c] eqn:Hm;
    [|rewrite (Man_manifest_fetch_fails _ _ _ _ _ Hs Ht Hm) in Hrun; discriminate Hrun].
  destruct (bmv_fetcher b (manifestSigURL loc)) as [s|c] eqn:Hsig;
    [|rewrite (Man_signature_fetch_fails _ _ _ _ _ _ Hs Ht Hm Hsig) in Hrun; discriminate Hrun].
  rewrite (Man_run _ _ _ _ _ _ Hs Ht Hm Hsig) in Hrun.
  destruct (verifySigned (bmv_keyring b) m s) as [[]|e] eqn:Hv; [|discriminate Hrun].
  destruct (checkMatchingDigest b localCopy m (fetched_manifest loc m s w)) as [r w'] eqn:Hd.
  inversion Hrun; subst r w1.
  apply checkMatchingDigest_success_inv in Hd as (f & Hf & Hr & Hdecl & ->).
  exists m, s, f. repeat split; assumption || reflexivity.
Qed.

Lemma Man_fetched b localCopy loc w :
  recognized_scheme (Scheme loc) = true ->
  tmp_fault w = None ->
  fetched (snd (BuildManifestVerifier_VerifyHoistArtifact b localCopy loc w)) =
    (fetched w ++
       (manifestURL loc, filepath_Join (tempdir_name w) "manifest") ::
       match bmv_fetcher b (manifestURL loc) with
       | Ok _ => [(manifestSigURL loc, filepath_Join (tempdir_name w) "signature")]
       | Err _ => []
       end)%list.
Proof.
  intros Hs Ht.
  destruct (bmv_fetcher b (manifestURL loc)) as [m|c] eqn:Hm.
  - destruct (bmv_fetcher b (manifestSigURL loc)) as [s|c] eqn:Hsig.
    + rewrite (Man_run _ _ _ _ _ _ Hs Ht Hm Hsig).
      destruct (verifySigned (bmv_keyring b) m s) as [[]|e]; [|reflexivity].
      pose proof (checkMatchingDigest_fetched b localCopy m (fetched_manifest loc m s w)) as Hf.
      destruct (checkMatchingDigest b localCopy m (fetched_manifest loc m s w)) as [r w'].
      simpl in Hf |- *. rewrite Hf. reflexivity.
    + rewrite (Man_signature_fetch_fails _ _ _ _ _ _ Hs Ht Hm Hsig). reflexivity.
  - rewrite (Man_manifest_fetch_fails _ _ _ _ _ Hs Ht Hm). reflexivity.
Qed.

Lemma Build_fetched b localCopy loc w :
  recognized_scheme (Scheme loc) = true ->
  tmp_fault w = None ->
  fetched (snd (BuildVerifier_VerifyHoistArtifact b localCopy loc w)) =
    (fetched w ++ [(sigURL loc, filepath_Join (tempdir_name w) "sig")])%list.
Proof.
  intros Hs Ht.
  destruct (bv_fetcher b (sigURL loc)) as [s|c] eqn:Hf.
  - rewrite (Build_run _ _ _ _ _ Hs Ht Hf).
    destruct (files w !! localCopy) as [f|]; [|reflexivity].
    destruct (read_fault f); reflexivity.
  - rewrite (Build_fetch_fails _ _ _ _ _ Hs Ht Hf). reflexivity.
Qed.

Lemma asked_app (w w' : World) (l : list (URL * string)) :
  fetched w' = (fetched w ++ l)%list -> asked w w' = l.
Proof. intros Heq. unfold asked. rewrite Heq. apply drop_app_length. Qed.

End Inversion.

(** ** The composite verifier *)

Section Composite.

Context `{Collaborators}.

Lemma Composite_after_failure b localCopy loc w e w1 f :
  BuildManifestVerifier_VerifyHoistArtifact (manVerifier b) localCopy loc w = (Err e, w1) ->
  files w1 !! localCopy = Some f ->
  CompositeVerifier_VerifyHoistArtifact b localCopy loc w =
    match seek_fault f with
    | Some c => (Err (ErrRewind (name f) c), w1)
    | None =>
        BuildVerifier_VerifyHoistArtifact (buildVerifier b) localCopy loc
          (rewound localCopy f w1)
    end.
Proof.
  intros Hman Hf. unfold CompositeVerifier_VerifyHoistArtifact.
  rewrite Hman. unfold File_Seek, File_Name. rewrite Hf.
  destruct (seek_fault f) as [c|]; [rewrite Hf|]; reflexivity.
Qed.

Lemma Composite_after_success b localCopy loc w w1 :
  BuildManifestVerifier_VerifyHoistArtifact (manVerifier b) localCopy loc w = (Ok tt, w1) ->
  CompositeVerifier_VerifyHoistArtifact b localCopy loc w = (Ok tt, w1).
Proof.
  intros Hman. unfold CompositeVerifier_VerifyHoistArtifact. rewrite Hman. reflexivity.
Qed.

(** C1: when the manifest strategy fails, whatever the failure, the
    composite seeks the local stream back to offset 0.  If the seek fails
    the composite returns the rewind error, an IOError, in the world the
    manifest strategy left: the build strategy has not run.  Otherwise the
    composite is the build strategy run on the rewound stream, and the
    failure of the manifest strategy is dropped. *)
Theorem composite_fallback_rewinds b localCopy loc w e w1 f :
  BuildManifestVerifier_VerifyHoistArtifact (manVerifier b) localCopy loc w = (Err e, w1) ->
  files w1 !! localCopy = Some f ->
  match seek_fault f with
  | Some c =>
      CompositeVerifier_VerifyHoistArtifact b localCopy loc w =
        (Err (ErrRewind (name f) c), w1) /\
      kind (ErrRewind (name f) c) = IOError
  | None =>
      CompositeVerifier_VerifyHoistArtifact b localCopy loc w =
        BuildVerifier_VerifyHoistArtifact (buildVerifier b) localCopy loc
          (rewound localCopy f w1) /\
      offset <$> files (rewound localCopy f w1) !! localCopy = Some 0
  end.
Proof.
  intros Hman Hf. rewrite (Composite_after_failure _ _ _ _ _ _ _ Hman Hf).
  destruct (seek_fault f) as [c|]; split; try reflexivity.
  unfold rewound, set_files. cbn [files]. rewrite lookup_insert_eq. reflexivity.
Qed.

(** C2: when the manifest strategy succeeds, the composite returns its
    success and its world: the fetcher was asked for the manifest and for
    the manifest's signature, and not for the direct signature
    [<base>.sig]. *)
Theorem composite_manifest_success_skips_build b localCopy loc w w1 :
  BuildManifestVerifier_VerifyHoistArtifact (manVerifier b) localCopy loc w = (Ok tt, w1) ->
  CompositeVerifier_VerifyHoistArtifact b localCopy loc w = (Ok tt, w1) /\
  map fst (asked w w1) = [manifestURL loc; manifestSigURL loc] /\
  Forall (fun request => request.1 <> sigURL loc) (asked w w1).
Proof.
  intros Hman. split; [apply Composite_after_success, Hman|].
  - pose proof (Man_success_inv _ _ _ _ _ Hman)
      as (m & s & f & Hs & Ht & Hm & Hsig & Hv & Hf & Hr & Hd & ->).
    rewrite (asked_app w _
      [(manifestURL loc, filepath_Join (tempdir_name w) "manifest");
       (manifestSigURL loc, filepath_Join (tempdir_name w) "signature")]) by reflexivity.
    split; [reflexivity|].
    repeat constructor; cbn [fst]; intros Heq; apply (f_equal Path) in Heq; cbn [Path] in Heq.
    + unfold manifestURL, sigURL in Heq. cbn [Path] in Heq.
      symmetry in Heq. exact (sig_path_ne_manifest_path _ Heq).
    + unfold manifestSigURL, sigURL in Heq. cbn [Path] in Heq.
      apply string_app_inv_head in Heq. discriminate Heq.
Qed.

(** C10: when the composite succeeds through the manifest strategy, the
    local stream is where the digest computation left it: at its end,
    with nothing more to read.  No seek took place. *)
Theorem composite_success_leaves_stream_at_end b localCopy loc w w1 f :
  BuildManifestVerifier_VerifyHoistArtifact (manVerifier b) localCopy loc w = (Ok tt, w1) ->
  files w !! localCopy = Some f ->
  let f' := with_offset f (offset f `max` length (data f)) in
  CompositeVerifier_VerifyHoistArtifact b localCopy loc w = (Ok tt, w1) /\
  files w1 = <[localCopy := f']> (files w) /\
  files w1 !! localCopy = Some f' /\
  drop (offset f') (data f') = [].
Proof.
  intros Hman Hf f'. split; [apply Composite_after_success, Hman|].
  - pose proof (Man_success_inv _ _ _ _ _ Hman)
      as (m & s & f0 & Hs & Ht & Hm & Hsig & Hv & Hf0 & Hr & Hd & ->).
    rewrite Hf in Hf0. inversion Hf0; subst f0.
    rewrite files_cleaned. unfold read_to_end, set_files, fetched_manifest. cbn [files].
    fold f'. split; [reflexivity|]. split; [apply lookup_insert_eq|].
    apply drop_ge. unfold f'. cbn [offset data with_offset]. lia.
Qed.

(** C3 (amended): for a scheme other than file, gs, http and https, the
    manifest verifier and the build verifier return their scheme error and
    leave the world as it was; the composite never asks the fetcher
    either, and returns the build verifier's scheme error when the local
    stream can be sought back to offset 0, and the rewind error when it
    cannot. *)
Theorem unrecognized_scheme_no_fetch b localCopy loc w f :
  recognized_scheme (Scheme loc) = false ->
  files w !! localCopy = Some f ->
  BuildManifestVerifier_VerifyHoistArtifact (manVerifier b) localCopy loc w =
    (Err (ErrSchemeManifest loc (Scheme loc)), w) /\
  BuildVerifier_VerifyHoistArtifact (buildVerifier b) localCopy loc w =
    (Err (ErrSchemeBuild loc), w) /\
  kind (ErrSchemeManifest loc (Scheme loc)) = UnsupportedScheme /\
  kind (ErrSchemeBuild loc) = UnsupportedScheme /\
  fetched (snd (CompositeVerifier_VerifyHoistArtifact b localCopy loc w)) = fetched w /\
  fst (CompositeVerifier_VerifyHoistArtifact b localCopy loc w) =
    match seek_fault f with
    | None => Err (ErrSchemeBuild loc)
    | Some c => Err (ErrRewind (name f) c)
    end.
Proof.
  intros Hs Hf.
  split; [apply Man_unrecognized, Hs|].
  split; [apply Build_unrecognized, Hs|].
  split; [reflexivity|]. split; [reflexivity|].
  rewrite (Composite_after_failure b localCopy loc w _ w f (Man_unrecognized _ _ _ _ Hs) Hf).
  destruct (seek_fault f) as [c|].
  - split; reflexivity.
  - rewrite Build_unrecognized by exact Hs. split; reflexivity.
Qed.

End Composite.

(** ** The manifest verifier and the build verifier *)

Section Inner.

Context `{Collaborators}.

(** C4: with the manifest and its signature downloaded, the signature is
    checked first.  If it does not verify, the manifest verifier fails with
    that error, a SignatureInvalid, and the local stream has not been read,
    whatever digest the manifest declares.  If it verifies, the outcome is
    the outcome of the digest check: success needs both. *)
Theorem manifest_signature_before_digest b localCopy loc w m s :
  recognized_scheme (Scheme loc) = true ->
  tmp_fault w = None ->
  bmv_fetcher b (manifestURL loc) = Ok m ->
  bmv_fetcher b (manifestSigURL loc) = Ok s ->
  match verifySigned (bmv_keyring b) m s with
  | Err e =>
      fst (BuildManifestVerifier_VerifyHoistArtifact b localCopy loc w) = Err e /\
      kind e = SignatureInvalid /\
      files (snd (BuildManifestVerifier_VerifyHoistArtifact b localCopy loc w)) = files w
  | Ok _ =>
      fst (BuildManifestVerifier_VerifyHoistArtifact b localCopy loc w) =
      fst (checkMatchingDigest b localCopy m (fetched_manifest loc m s w))
  end.
Proof.
  intros Hs Ht Hm Hsig. rewrite (Man_run _ _ _ _ _ _ Hs Ht Hm Hsig).
  destruct (verifySigned (bmv_keyring b) m s) as [[]|e] eqn:Hv.
  - destruct (checkMatchingDigest b localCopy m (fetched_manifest loc m s w)). reflexivity.
  - split; [reflexivity|]. split; [exact (verifySigned_kind _ _ _ _ Hv)|reflexivity].
Qed.

(** C5: the digest check hashes what the local stream holds from its read
    offset to its end (all of it, from offset 0) with SHA-256, renders the
    digest as 64 lowercase hexadecimal characters, and compares that
    string with the digest the manifest declares: equal strings succeed,
    any other string is a DigestMismatch; a manifest that does not parse
    is a ParseError. *)
Theorem digest_comparison_exact b localCopy manifestBytes w f :
  files w !! localCopy = Some f ->
  read_fault f = None ->
  let realDigest := hex_EncodeToString (SHA256.Sum256 (drop (offset f) (data f))) in
  let r := fst (checkMatchingDigest b localCopy manifestBytes w) in
  is_lower_hex realDigest = true /\
  String.length realDigest = 64 /\
  match yaml_artifact_sha manifestBytes with
  | Err c => r = Err (ErrUnmarshal c) /\ kind (ErrUnmarshal c) = ParseError
  | Ok declared =>
      let d := default "" declared in
      (d = realDigest /\ r = Ok tt) \/
      (d <> realDigest /\ r = Err (ErrDigest realDigest d) /\
       kind (ErrDigest realDigest d) = DigestMismatch)
  end.
Proof.
  intros Hf Hr realDigest r.
  split; [apply hex_EncodeToString_lower|].
  split; [apply realDigest_length|].
  unfold r. rewrite (checkMatchingDigest_run _ _ _ _ _ Hf Hr). cbv zeta. fold realDigest.
  unfold declared_digest.
  destruct (yaml_artifact_sha manifestBytes) as [declared|c]; [|split; reflexivity].
  assert (Hd : match declared with Some v => Ok v | None => Ok "" end =
               @Ok cause string (default "" declared)) by (destruct declared; reflexivity).
  rewrite Hd. cbn [fst]. cbv zeta.
  destruct (String.eqb realDigest (default "" declared)) eqn:Heq.
  - left. apply String.eqb_eq in Heq. split; [symmetry; exact Heq|reflexivity].
  - right. apply String.eqb_neq in Heq. split; [congruence|]. split; reflexivity.
Qed.

(** C9: a manifest that parses and declares no digest, or an empty one,
    never passes the digest check: the digest of the local stream is 64
    lowercase hexadecimal characters, so the comparison with the empty
    string is a DigestMismatch. *)
Theorem empty_declared_digest_mismatch b localCopy manifestBytes w f declared :
  yaml_artifact_sha manifestBytes = Ok declared ->
  declared = None \/ declared = Some "" ->
  files w !! localCopy = Some f ->
  read_fault f = None ->
  let realDigest := hex_EncodeToString (SHA256.Sum256 (drop (offset f) (data f))) in
  checkMatchingDigest b localCopy manifestBytes w =
    (Err (ErrDigest realDigest ""), read_to_end localCopy f w) /\
  kind (ErrDigest realDigest "") = DigestMismatch /\
  String.length realDigest = 64 /\
  is_lower_hex realDigest = true /\
  (forall w0, fst (checkMatchingDigest b localCopy manifestBytes w0) <> Ok tt).
Proof.
  intros Hy Hdecl Hf Hr realDigest.
  assert (Hd : declared_digest manifestBytes = Ok "").
  { unfold declared_digest. rewrite Hy. destruct Hdecl as [-> | ->]; reflexivity. }
  split.
  { rewrite (checkMatchingDigest_run _ _ _ _ _ Hf Hr). cbv zeta. fold realDigest. rewrite Hd.
    destruct (String.eqb realDigest "") eqn:Heq; [|reflexivity].
    apply String.eqb_eq in Heq. exfalso. exact (realDigest_nonempty _ Heq). }
  split; [reflexivity|].
  split; [apply realDigest_length|].
  split; [apply hex_EncodeToString_lower|].
  intros w0 Hok.
  destruct (checkMatchingDigest b localCopy manifestBytes w0) as [r w0'] eqn:Hrun.
  cbn [fst] in Hok. subst r.
  apply checkMatchingDigest_success_inv in Hrun as (f0 & _ & _ & Hd0 & _).
  rewrite Hd in Hd0.
  apply (f_equal (fun d => match d with Ok v => v | Err _ => "" end)) in Hd0.
  exact (realDigest_nonempty _ (eq_sym Hd0)).
Qed.

Lemma companion_manifestURL loc : companion loc ".manifest" (manifestURL loc).
Proof. repeat split. Qed.

Lemma companion_manifestSigURL loc : companion loc ".manifest.sig" (manifestSigURL loc).
Proof. repeat split. Qed.

Lemma companion_sigURL loc : companion loc ".sig" (sigURL loc).
Proof. repeat split. Qed.

(** C6: for a recognized scheme, the manifest verifier asks the fetcher
    for the artifact's URL with [.manifest] appended to the path and then,
    if that download succeeds, with [.manifest.sig] appended; the build
    verifier asks for it with [.sig] appended.  Scheme, host, query,
    fragment and the other fields are those of the artifact's URL. *)
Theorem companion_urls_by_path_suffix bm bv localCopy loc w :
  recognized_scheme (Scheme loc) = true ->
  tmp_fault w = None ->
  asked w (snd (BuildManifestVerifier_VerifyHoistArtifact bm localCopy loc w)) =
    (manifestURL loc, filepath_Join (tempdir_name w) "manifest") ::
    match bmv_fetcher bm (manifestURL loc) with
    | Ok _ => [(manifestSigURL loc, filepath_Join (tempdir_name w) "signature")]
    | Err _ => []
    end /\
  asked w (snd (BuildVerifier_VerifyHoistArtifact bv localCopy loc w)) =
    [(sigURL loc, filepath_Join (tempdir_name w) "sig")] /\
  companion loc ".manifest" (manifestURL loc) /\
  companion loc ".manifest.sig" (manifestSigURL loc) /\
  companion loc ".sig" (sigURL loc).
Proof.
  intros Hs Ht.
  split; [apply asked_app, Man_fetched; assumption|].
  split; [apply asked_app, Build_fetched; assumption|].
  split; [apply companion_manifestURL|].
  split; [apply companion_manifestSigURL|apply companion_sigURL].
Qed.

(** C7: the caller does not say how the signature is encoded.  A
    signature that decodes as an armored block is replaced by the body of
    the block, any other is used as it is; so a raw signature and the same
    signature in armor get the same verdict. *)
Theorem verifySigned_armor_transparent keyring payload raw wrapped block c :
  armor_Decode raw = Err c ->
  armor_Decode wrapped = Ok block ->
  Body block = Ok raw ->
  verifySigned keyring payload wrapped = verifySigned keyring payload raw /\
  verifySigned keyring payload raw =
    match checkDetachedSignature keyring payload raw with
    | Ok _ => Ok tt
    | Err c' => Err (ErrSignature c')
    end.
Proof.
  intros Hraw Hwrapped Hbody. unfold verifySigned.
  rewrite Hraw, Hwrapped, Hbody. split; reflexivity.
Qed.

End Inner.

(** ** Construction and the key store *)

Section Construction.

Context `{Collaborators}.

Lemma checkMatchingDigest_never_keyring b localCopy manifestBytes w e :
  fst (checkMatchingDigest b localCopy manifestBytes w) = Err e ->
  kind e <> KeyringLoadError.
Proof.
  intros Hrun.
  destruct (files w !! localCopy) as [f|] eqn:Hf.
  - destruct (read_fault f) as [c|] eqn:Hr.
    + rewrite (checkMatchingDigest_read_fault _ _ _ _ _ _ Hf Hr) in Hrun.
      inversion Hrun. discriminate.
    + rewrite (checkMatchingDigest_run _ _ _ _ _ Hf Hr) in Hrun. cbn [fst] in Hrun.
      cbv zeta in Hrun. set (realDigest := hex_EncodeToString _) in Hrun. clearbody realDigest.
      destruct (declared_digest manifestBytes) as [d|c].
      * destruct (String.eqb _ d); inversion Hrun. discriminate.
      * inversion Hrun. discriminate.
  - rewrite (checkMatchingDigest_not_open _ _ _ _ Hf) in Hrun. inversion Hrun. discriminate.
Qed.

Lemma Man_never_keyring b localCopy loc w e :
  fst (BuildManifestVerifier_VerifyHoistArtifact b localCopy loc w) = Err e ->
  kind e <> KeyringLoadError.
Proof.
  intros Hrun.
  destruct (recognized_scheme (Scheme loc)) eqn:Hs;
    [|rewrite (Man_unrecognized _ _ _ _ Hs) in Hrun; inversion Hrun; discriminate].
  destruct (tmp_fault w) as [c|] eqn:Ht;
    [rewrite (Man_tempdir_fault _ _ _ _ _ Hs Ht) in Hrun; inversion Hrun; discriminate|].
  destruct (bmv_fetcher b (manifestURL loc)) as [m|c] eqn:Hm;
    [|rewrite (Man_manifest_fetch_fails _ _ _ _ _ Hs Ht Hm) in Hrun;
      inversion Hrun; discriminate].
  destruct (bmv_fetcher b (manifestSigURL loc)) as [s|c] eqn:Hsig;
    [|rewrite (Man_signature_fetch_fails _ _ _ _ _ _ Hs Ht Hm Hsig) in Hrun;
      inversion Hrun; discriminate].
  rewrite (Man_run _ _ _ _ _ _ Hs Ht Hm Hsig) in Hrun.
  destruct (verifySigned (bmv_keyring b) m s) as [[]|e'] eqn:Hv.
  - pose proof (checkMatchingDigest_never_keyring b localCopy m (fetched_manifest loc m s w) e)
      as Hd.
    destruct (checkMatchingDigest b localCopy m (fetched_manifest loc m s w)) as [r w'].
    apply Hd. exact Hrun.
  - cbn [fst] in Hrun. inversion Hrun; subst e'.
    rewrite (verifySigned_kind _ _ _ _ Hv). discriminate.
Qed.

Lemma Build_never_keyring b localCopy loc w e :
  fst (BuildVerifier_VerifyHoistArtifact b localCopy loc w) = Err e ->
  kind e <> KeyringLoadError.
Proof.
  intros Hrun.
  destruct (recognized_scheme (Scheme loc)) eqn:Hs;
    [|rewrite (Build_unrecognized _ _ _ _ Hs) in Hrun; inversion Hrun; discriminate].
  destruct (tmp_fault w) as [c|] eqn:Ht;
    [rewrite (Build_tempdir_fault _ _ _ _ _ Hs Ht) in Hrun; inversion Hrun; discriminate|].
  destruct (bv_fetcher b (sigURL loc)) as [s|c] eqn:Hf;
    [|rewrite (Build_fetch_fails _ _ _ _ _ Hs Ht Hf) in Hrun; inversion Hrun; discriminate].
  rewrite (Build_run _ _ _ _ _ Hs Ht Hf) in Hrun.
  destruct (files w !! localCopy) as [f|]; [|inversion Hrun; discriminate].
  destruct (read_fault f) as [c|]; [inversion Hrun; discriminate|].
  cbn [fst] in Hrun. rewrite (verifySigned_kind _ _ _ _ Hrun). discriminate.
Qed.

Lemma Composite_never_keyring b localCopy loc w e :
  fst (CompositeVerifier_VerifyHoistArtifact b localCopy loc w) = Err e ->
  kind e <> KeyringLoadError.
Proof.
  unfold CompositeVerifier_VerifyHoistArtifact. intros Hrun.
  destruct (BuildManifestVerifier_VerifyHoistArtifact (manVerifier b) localCopy loc w)
    as [[[]|e1] w1]; [discriminate Hrun|].
  destruct (File_Seek localCopy 0 SEEK_SET w1) as [[z|c] w2].
  - exact (Build_never_keyring _ _ _ _ _ Hrun).
  - inversion Hrun. discriminate.
Qed.

Lemma New_keyring_fails keyringPath (w : World) c :
  LoadKeyring keyringPath = Err c ->
  on_err (ErrKeyring keyringPath) (LoadKeyring_io keyringPath) w =
    (Err (ErrKeyring keyringPath c),
     set_keyring_loads (keyring_loads w ++ [keyringPath]) w).
Proof. intros Hl. unfold on_err, LoadKeyring_io. rewrite Hl. reflexivity. Qed.

(** C8: when the key store cannot load the keyring, each of the three
    constructors returns the keyring error and no verifier, after that one
    attempt to load it; and no call of VerifyHoistArtifact, on any of the
    four verifiers, returns a keyring error. *)
Theorem keyring_failure_only_at_construction keyringPath fetcher logger w c :
  LoadKeyring keyringPath = Err c ->
  let w' := set_keyring_loads (keyring_loads w ++ [keyringPath]) w in
  NewBuildManifestVerifier keyringPath fetcher logger w =
    (Err (ErrKeyring keyringPath c), w') /\
  NewBuildVerifier keyringPath fetcher logger w = (Err (ErrKeyring keyringPath c), w') /\
  NewCompositeVerifier keyringPath fetcher logger w =
    (Err (ErrKeyring keyringPath c), w') /\
  kind (ErrKeyring keyringPath c) = KeyringLoadError /\
  (forall (n : nopVerifier) localCopy loc w0 e,
     fst (VerifyHoistArtifact n localCopy loc w0) = Err e -> kind e <> KeyringLoadError) /\
  (forall (b : BuildManifestVerifier) localCopy loc w0 e,
     fst (VerifyHoistArtifact b localCopy loc w0) = Err e -> kind e <> KeyringLoadError) /\
  (forall (b : BuildVerifier) localCopy loc w0 e,
     fst (VerifyHoistArtifact b localCopy loc w0) = Err e -> kind e <> KeyringLoadError) /\
  (forall (b : CompositeVerifier) localCopy loc w0 e,
     fst (VerifyHoistArtifact b localCopy loc w0) = Err e -> kind e <> KeyringLoadError).
Proof.
  intros Hl w'.
  assert (Hman : NewBuildManifestVerifier keyringPath fetcher logger w =
                 (Err (ErrKeyring keyringPath c), w')).
  { unfold NewBuildManifestVerifier, mbind, M_bind.
    rewrite (New_keyring_fails _ _ _ Hl). reflexivity. }
  split; [exact Hman|].
  split.
  { unfold NewBuildVerifier, mbind, M_bind.
    rewrite (New_keyring_fails _ _ _ Hl). reflexivity. }
  split.
  { unfold NewCompositeVerifier, mbind, M_bind. fold (@mbind (M error) _).
    rewrite Hman. reflexivity. }
  split; [reflexivity|].
  split; [intros n localCopy loc w0 e He; discriminate He|].
  split; [exact Man_never_keyring|].
  split; [exact Build_never_keyring|exact Composite_never_keyring].
Qed.

End Construction.

(** ** The theorems at work on the small build pipeline *)

(** The manifest is stale: the manifest verifier reads the artifact to its
    end and reports a digest mismatch; the composite rewinds the artifact
    and hands it to the build verifier. *)
Lemma composite_fallback_rewinds_witness :
  let b := Fixture.composite (Fixture.serve Fixture.stale_manifest "build" "build") in
  let w := Fixture.world (Fixture.local_file None None) in
  let w1 := snd (BuildManifestVerifier_VerifyHoistArtifact
                   (manVerifier b) 3 Fixture.location w) in
  let f := with_offset (Fixture.local_file None None) 3 in
  files w1 !! 3 = Some f /\
  CompositeVerifier_VerifyHoistArtifact b 3 Fixture.location w =
    BuildVerifier_VerifyHoistArtifact (buildVerifier b) 3 Fixture.location (rewound 3 f w1) /\
  offset <$> files (rewound 3 f w1) !! 3 = Some 0.
Proof.
  intros b w w1 f.
  assert (Hf : files w1 !! 3 = Some f) by (vm_compute; reflexivity).
  split; [exact Hf|].
  refine (composite_fallback_rewinds b 3 Fixture.location w _ w1 f _ Hf).
  vm_compute. reflexivity.
Defined.

Lemma composite_manifest_success_skips_build_witness :
  let b := Fixture.composite (Fixture.serve Fixture.good_manifest "build" "build") in
  let w := Fixture.world (Fixture.local_file None None) in
  let w1 := snd (BuildManifestVerifier_VerifyHoistArtifact
                   (manVerifier b) 3 Fixture.location w) in
  CompositeVerifier_VerifyHoistArtifact b 3 Fixture.location w = (Ok tt, w1) /\
  map fst (asked w w1) = [manifestURL Fixture.location; manifestSigURL Fixture.location] /\
  Forall (fun request => request.1 <> sigURL Fixture.location) (asked w w1).
Proof.
  intros b w w1.
  refine (composite_manifest_success_skips_build b 3 Fixture.location w w1 _).
  vm_compute. reflexivity.
Defined.

Lemma composite_success_leaves_stream_at_end_witness :
  let b := Fixture.composite (Fixture.serve Fixture.good_manifest "build" "build") in
  let w := Fixture.world (Fixture.local_file None None) in
  let w1 := snd (BuildManifestVerifier_VerifyHoistArtifact
                   (manVerifier b) 3 Fixture.location w) in
  files w1 !! 3 = Some (with_offset (Fixture.local_file None None) 3).
Proof.
  intros b w w1.
  refine (proj1 (proj2 (proj2
    (composite_success_leaves_stream_at_end b 3 Fixture.location w w1
       (Fixture.local_file None None) _ _)))).
  - vm_compute. reflexivity.
  - vm_compute. reflexivity.
Defined.

(** C3 as it was claimed, refuted: the scheme is ftp and the local copy
    cannot seek; the composite returns the rewind error, which is not a
    scheme error. *)
Lemma composite_unrecognized_scheme_counterexample :
  let b := Fixture.composite (Fixture.serve Fixture.good_manifest "build" "build") in
  let w := Fixture.world (Fixture.local_file (Some Fixture.ESPIPE) None) in
  recognized_scheme (Scheme Fixture.ftp_location) = false /\
  fst (CompositeVerifier_VerifyHoistArtifact b 3 Fixture.ftp_location w) =
    Err (ErrRewind "/tmp/myapp_abc123.tar.gz" "illegal seek") /\
  kind (ErrRewind "/tmp/myapp_abc123.tar.gz" "illegal seek") <> UnsupportedScheme.
Proof.
  intros b w. split; [reflexivity|]. split; [vm_compute; reflexivity|].
  cbn [kind]. discriminate.
Qed.

Lemma unrecognized_scheme_no_fetch_witness :
  let b := Fixture.composite (Fixture.serve Fixture.good_manifest "build" "build") in
  let w := Fixture.world (Fixture.local_file None None) in
  recognized_scheme (Scheme Fixture.ftp_location) = false /\
  fetched (snd (CompositeVerifier_VerifyHoistArtifact b 3 Fixture.ftp_location w)) = [] /\
  fst (CompositeVerifier_VerifyHoistArtifact b 3 Fixture.ftp_location w) =
    Err (ErrSchemeBuild Fixture.ftp_location).
Proof.
  intros b w.
  assert (Hs : recognized_scheme (Scheme Fixture.ftp_location) = false) by reflexivity.
  split; [exact Hs|].
  exact (proj2 (proj2 (proj2 (proj2
    (unrecognized_scheme_no_fetch b 3 Fixture.ftp_location w
       (Fixture.local_file None None) Hs eq_refl))))).
Defined.

(** The manifest declares the right digest but is signed by a key that is
    not in the keyring. *)
Lemma manifest_signature_before_digest_witness :
  let b := Fixture.manV (Fixture.serve Fixture.good_manifest "mallory" "build") in
  let w := Fixture.world (Fixture.local_file None None) in
  let e := ErrSignature "openpgp: signature made by unknown entity" in
  fst (checkMatchingDigest b 3 Fixture.good_manifest w) = Ok tt /\
  fst (BuildManifestVerifier_VerifyHoistArtifact b 3 Fixture.location w) = Err e /\
  kind e = SignatureInvalid /\
  files (snd (BuildManifestVerifier_VerifyHoistArtifact b 3 Fixture.location w)) = files w.
Proof.
  intros b w e.
  split; [vm_compute; reflexivity|].
  assert (Hv : verifySigned (bmv_keyring b) Fixture.good_manifest
                 (Fixture.sign "mallory" Fixture.good_manifest) = Err e)
    by (vm_compute; reflexivity).
  pose proof (manifest_signature_before_digest b 3 Fixture.location w
                Fixture.good_manifest (Fixture.sign "mallory" Fixture.good_manifest)
                eq_refl eq_refl eq_refl eq_refl) as Hthm.
  rewrite Hv in Hthm. exact Hthm.
Defined.

Lemma digest_comparison_exact_witness :
  let b := Fixture.manV (Fixture.serve Fixture.good_manifest "build" "build") in
  let w := Fixture.world (Fixture.local_file None None) in
  SHA256.Sum256 Fixture.artifact <> SHA256.Sum256 [] /\
  fst (checkMatchingDigest b 3 Fixture.good_manifest w) = Ok tt /\
  fst (checkMatchingDigest b 3 Fixture.stale_manifest w) =
    Err (ErrDigest "ba7816bf8f01cfea414140de5dae2223b00361a396177a9cb410ff61f20015ad"
                   "e3b0c44298fc1c149afbf4c8996fb92427ae41e4649b934ca495991b7852b855").
Proof.
  intros b w.
  split; [vm_compute; discriminate|].
  pose proof (digest_comparison_exact b 3 Fixture.good_manifest w
                (Fixture.local_file None None) eq_refl eq_refl) as (_ & _ & Hgood).
  pose proof (digest_comparison_exact b 3 Fixture.stale_manifest w
                (Fixture.local_file None None) eq_refl eq_refl) as (_ & _ & Hstale).
  split.
  - vm_compute in Hgood. destruct Hgood as [[_ Hr] | [Hne _]]; [exact Hr|].
    exfalso. apply Hne. reflexivity.
  - vm_compute in Hstale. destruct Hstale as [[Heq _] | [_ [Hr _]]]; [discriminate Heq|].
    vm_compute. exact Hr.
Defined.
Lemma companion_urls_by_path_suffix_witness :
  let bm := Fixture.manV (Fixture.serve Fixture.good_manifest "build" "build") in
  let bv := Fixture.buildV (Fixture.serve Fixture.good_manifest "build" "build") in
  let w := Fixture.world (Fixture.local_file None None) in
  map (fun request => (Scheme request.1, Host request.1, Path request.1,
                         RawQuery request.1, Fragment request.1))
      (asked w (snd (BuildManifestVerifier_VerifyHoistArtifact bm 3 Fixture.location w)) ++
       asked w (snd (BuildVerifier_VerifyHoistArtifact bv 3 Fixture.location w))) =
  [("https", "foo.bar.baz", "/artifacts/myapp_abc123.tar.gz.manifest", "v=1", "top");
   ("https", "foo.bar.baz", "/artifacts/myapp_abc123.tar.gz.manifest.sig", "v=1", "top");
   ("https", "foo.bar.baz", "/artifacts/myapp_abc123.tar.gz.sig", "v=1", "top")].
Proof.
  intros bm bv w.
  pose proof (companion_urls_by_path_suffix bm bv 3 Fixture.location w eq_refl eq_refl)
    as (Hman & Hbuild & _).
  rewrite Hman, Hbuild. reflexivity.
Defined.

(** The build key's signature over the artifact, raw and in armor. *)
Lemma verifySigned_armor_transparent_witness :
  let raw := Fixture.sign "build" Fixture.artifact in
  armor_Decode raw = Err "EOF" /\
  armor_Decode (Fixture.armored raw) = Ok (mkBlock (Ok raw)) /\
  verifySigned ["build"] Fixture.artifact (Fixture.armored raw) =
    verifySigned ["build"] Fixture.artifact raw /\
  verifySigned ["build"] Fixture.artifact raw = Ok tt.
Proof.
  intros raw.
  assert (Hraw : armor_Decode raw = Err "EOF") by (vm_compute; reflexivity).
  assert (Hwrapped : armor_Decode (Fixture.armored raw) = Ok (mkBlock (Ok raw)))
    by (vm_compute; reflexivity).
  split; [exact Hraw|]. split; [exact Hwrapped|].
  split.
  - exact (proj1 (verifySigned_armor_transparent ["build"] Fixture.artifact raw
                    (Fixture.armored raw) (mkBlock (Ok raw)) "EOF" Hraw Hwrapped eq_refl)).
  - vm_compute. reflexivity.
Defined.

Lemma keyring_failure_only_at_construction_witness :
  let fetcher := Fixture.serve Fixture.good_manifest "build" "build" in
  let w := Fixture.world (Fixture.local_file None None) in
  LoadKeyring "/nonexistent" = Err "open: no such file or directory" /\
  fst (NewCompositeVerifier "/nonexistent" fetcher mkLogger w) =
    Err (ErrKeyring "/nonexistent" "open: no such file or directory") /\
  keyring_loads (snd (NewCompositeVerifier "/nonexistent" fetcher mkLogger w)) =
    ["/nonexistent"].
Proof.
  intros fetcher w.
  assert (Hl : LoadKeyring "/nonexistent" = Err "open: no such file or directory")
    by reflexivity.
  split; [exact Hl|].
  pose proof (keyring_failure_only_at_construction "/nonexistent" fetcher mkLogger w _ Hl)
    as (_ & _ & Hc & _).
  rewrite Hc. split; reflexivity.
Defined.

(** A manifest without the key [artifact_sha]. *)
Lemma empty_declared_digest_mismatch_witness :
  let b := Fixture.manV (Fixture.serve Fixture.empty_manifest "build" "build") in
  let w := Fixture.world (Fixture.local_file None None) in
  yaml_artifact_sha Fixture.empty_manifest = Ok None /\
  fst (checkMatchingDigest b 3 Fixture.empty_manifest w) =
    Err (ErrDigest "ba7816bf8f01cfea414140de5dae2223b00361a396177a9cb410ff61f20015ad" "").
Proof.
  intros b w.
  assert (Hy : yaml_artifact_sha Fixture.empty_manifest = Ok None) by (vm_compute; reflexivity).
  split; [exact Hy|].
  pose proof (empty_declared_digest_mismatch b 3 Fixture.empty_manifest w
                (Fixture.local_file None None) None Hy (or_introl eq_refl) eq_refl eq_refl)
    as (Hrun & _).
  rewrite Hrun. vm_compute. reflexivity.
Defined.

(** ** When the inner verifiers accept *)

Section Acceptance.

Context `{Collaborators}.

Lemma checkMatchingDigest_accepts b localCopy manifestBytes w f :
  files w !! localCopy = Some f ->
  read_fault f = None ->
  declared_digest manifestBytes =
    Ok (hex_EncodeToString (SHA256.Sum256 (drop (offset f) (data f)))) ->
  checkMatchingDigest b localCopy manifestBytes w = (Ok tt, read_to_end localCopy f w).
Proof.
  intros Hf Hr Hd. rewrite (checkMatchingDigest_run _ _ _ _ _ Hf Hr). cbv zeta.
  rewrite Hd, String.eqb_refl. reflexivity.
Qed.

(** X1: the manifest verifier accepts exactly when the scheme is
    recognized, the temporary directory can be made, the manifest and its
    signature can be fetched, the signature verifies over the manifest
    against the verifier's keyring, the local stream can be read, and the
    digest the manifest declares is the hexadecimal SHA-256 of what the
    stream holds from its read offset on. *)
Theorem manifest_verifier_accepts_iff b localCopy loc w :
  fst (BuildManifestVerifier_VerifyHoistArtifact b localCopy loc w) = Ok tt <->
  exists m s f,
    recognized_scheme (Scheme loc) = true /\ tmp_fault w = None /\
    bmv_fetcher b (manifestURL loc) = Ok m /\
    bmv_fetcher b (manifestSigURL loc) = Ok s /\
    verifySigned (bmv_keyring b) m s = Ok tt /\
    files w !! localCopy = Some f /\ read_fault f = None /\
    declared_digest m = Ok (hex_EncodeToString (SHA256.Sum256 (drop (offset f) (data f)))).
Proof.
  split.
  - intros Hok.
    destruct (BuildManifestVerifier_VerifyHoistArtifact b localCopy loc w) as [r w1] eqn:Hrun.
    cbn [fst] in Hok. subst r.
    apply Man_success_inv in Hrun
      as (m & s & f & Hs & Ht & Hm & Hsig & Hv & Hf & Hr & Hd & _).
    exists m, s, f. repeat split; assumption.
  - intros (m & s & f & Hs & Ht & Hm & Hsig & Hv & Hf & Hr & Hd).
    rewrite (Man_run _ _ _ _ _ _ Hs Ht Hm Hsig), Hv.
    rewrite (checkMatchingDigest_accepts b localCopy m (fetched_manifest loc m s w) f Hf Hr Hd).
    reflexivity.
Qed.

Lemma Build_success_inv b localCopy loc w :
  fst (BuildVerifier_VerifyHoistArtifact b localCopy loc w) = Ok tt ->
  exists s f,
    recognized_scheme (Scheme loc) = true /\ tmp_fault w = None /\
    bv_fetcher b (sigURL loc) = Ok s /\
    files w !! localCopy = Some f /\ read_fault f = None /\
    verifySigned (bv_keyring b) (drop (offset f) (data f)) s = Ok tt.
Proof.
  intros Hok.
  destruct (recognized_scheme (Scheme loc)) eqn:Hs;
    [|rewrite (Build_unrecognized _ _ _ _ Hs) in Hok; discriminate Hok].
  destruct (tmp_fault w) as [c|] eqn:Ht;
    [rewrite (Build_tempdir_fault _ _ _ _ _ Hs Ht) in Hok; discriminate Hok|].
  destruct (bv_fetcher b (sigURL loc)) as [s|c] eqn:Hf;
    [|rewrite (Build_fetch_fails _ _ _ _ _ Hs Ht Hf) in Hok; discriminate Hok].
  rewrite (Build_run _ _ _ _ _ Hs Ht Hf) in Hok.
  destruct (files w !! localCopy) as [f|] eqn:Hfile; [|discriminate Hok].
  destruct (read_fault f) as [c|] eqn:Hr; [discriminate Hok|].
  exists s, f. repeat split; assumption || reflexivity.
Qed.

Lemma Build_accepts b localCopy loc w s f :
  recognized_scheme (Scheme loc) = true -> tmp_fault w = None ->
  bv_fetcher b (sigURL loc) = Ok s ->
  files w !! localCopy = Some f -> read_fault f = None ->
  fst (BuildVerifier_VerifyHoistArtifact b localCopy loc w) =
    verifySigned (bv_keyring b) (drop (offset f) (data f)) s.
Proof.
  intros Hs Ht Hf Hfile Hr. rewrite (Build_run _ _ _ _ _ Hs Ht Hf), Hfile, Hr. reflexivity.
Qed.

(** X2: the build verifier accepts exactly when the scheme is recognized,
    the temporary directory can be made, the signature at [<base>.sig] can
    be fetched, the local stream can be read, and the signature verifies
    over what the stream holds from its read offset on. *)
Theorem build_verifier_accepts_iff b localCopy loc w :
  fst (BuildVerifier_VerifyHoistArtifact b localCopy loc w) = Ok tt <->
  exists s f,
    recognized_scheme (Scheme loc) = true /\ tmp_fault w = None /\
    bv_fetcher b (sigURL loc) = Ok s /\
    files w !! localCopy = Some f /\ read_fault f = None /\
    verifySigned (bv_keyring b) (drop (offset f) (data f)) s = Ok tt.
Proof.
  split; [apply Build_success_inv|].
  intros (s & f & Hs & Ht & Hf & Hfile & Hr & Hv).
  rewrite (Build_accepts _ _ _ _ _ _ Hs Ht Hf Hfile Hr). exact Hv.
Qed.

End Acceptance.

(** ** What the verifiers leave of the world *)

Section Frame.

Context `{Collaborators}.

Lemma checkMatchingDigest_world b localCopy manifestBytes w :
  let w' := snd (checkMatchingDigest b localCopy manifestBytes w) in
  tmpfs w' = tmpfs w /\ tmp_fault w' = tmp_fault w /\ tmp_seq w' = tmp_seq w /\
  keyring_loads w' = keyring_loads w /\
  (files w' = files w \/
   exists f, files w !! localCopy = Some f /\ read_fault f = None /\
             files w' = <[localCopy := with_offset f (offset f `max` length (data f))]> (files w)).
Proof.
  destruct (files w !! localCopy) as [f|] eqn:Hf.
  - destruct (read_fault f) as [c|] eqn:Hr.
    + rewrite (checkMatchingDigest_read_fault _ _ _ _ _ _ Hf Hr). cbn [snd].
      repeat split. left. reflexivity.
    + rewrite (checkMatchingDigest_run _ _ _ _ _ Hf Hr). cbn [snd].
      repeat split. right. exists f. repeat split; assumption || reflexivity.
  - rewrite (checkMatchingDigest_not_open _ _ _ _ Hf). cbn [snd].
    repeat split. left. reflexivity.
Qed.

(** The manifest verifier changes the open files in one way only: it may
    read the local copy to its end. *)
Lemma Man_files b localCopy loc w :
  let w' := snd (BuildManifestVerifier_VerifyHoistArtifact b localCopy loc w) in
  tmp_fault w' = tmp_fault w /\ keyring_loads w' = keyring_loads w /\
  (files w' = files w \/
   exists f, files w !! localCopy = Some f /\ read_fault f = None /\
             files w' = <[localCopy := with_offset f (offset f `max` length (data f))]> (files w)).
Proof.
  destruct (recognized_scheme (Scheme loc)) eqn:Hs;
    [|rewrite (Man_unrecognized _ _ _ _ Hs); repeat split; left; reflexivity].
  destruct (tmp_fault w) as [c|] eqn:Ht;
    [rewrite (Man_tempdir_fault _ _ _ _ _ Hs Ht); cbn [snd]; rewrite Ht;
     repeat split; left; reflexivity|].
  destruct (bmv_fetcher b (manifestURL loc)) as [m|c] eqn:Hm;
    [|rewrite (Man_manifest_fetch_fails _ _ _ _ _ Hs Ht Hm); cbn; rewrite Ht;
      repeat split; left; reflexivity].
  destruct (bmv_fetcher b (manifestSigURL loc)) as [s|c] eqn:Hsig;
    [|rewrite (Man_signature_fetch_fails _ _ _ _ _ _ Hs Ht Hm Hsig); cbn; rewrite Ht;
      repeat split; left; reflexivity].
  rewrite (Man_run _ _ _ _ _ _ Hs Ht Hm Hsig).
  destruct (verifySigned (bmv_keyring b) m s) as [[]|e];
    [|cbn; rewrite Ht; repeat split; left; reflexivity].
  pose proof (checkMatchingDigest_world b localCopy m (fetched_manifest loc m s w))
    as (_ & Hfault & _ & Hloads & Hfiles).
  destruct (checkMatchingDigest b localCopy m (fetched_manifest loc m s w)) as [r w'].
  cbn [snd] in *. rewrite files_cleaned.
  split; [exact (eq_trans Hfault Ht)|]. split; [exact Hloads|]. exact Hfiles.
Qed.

Lemma Build_files b localCopy loc w :
  let w' := snd (BuildVerifier_VerifyHoistArtifact b localCopy loc w) in
  tmp_fault w' = tmp_fault w /\ keyring_loads w' = keyring_loads w /\
  (files w' = files w \/
   exists f, files w !! localCopy = Some f /\ read_fault f = None /\
             files w' = <[localCopy := with_offset f (offset f `max` length (data f))]> (files w)).
Proof.
  destruct (recognized_scheme (Scheme loc)) eqn:Hs;
    [|rewrite (Build_unrecognized _ _ _ _ Hs); repeat split; left; reflexivity].
  destruct (tmp_fault w) as [c|] eqn:Ht;
    [rewrite (Build_tempdir_fault _ _ _ _ _ Hs Ht); cbn [snd]; rewrite Ht;
     repeat split; left; reflexivity|].
  destruct (bv_fetcher b (sigURL loc)) as [s|c] eqn:Hf;
    [|rewrite (Build_fetch_fails _ _ _ _ _ Hs Ht Hf); cbn; rewrite Ht;
      repeat split; left; reflexivity].
  rewrite (Build_run _ _ _ _ _ Hs Ht Hf).
  destruct (files w !! localCopy) as [f|] eqn:Hfile;
    [|cbn; rewrite Ht; repeat split; left; reflexivity].
  destruct (read_fault f) as [c|] eqn:Hr;
    [cbn; rewrite Ht; repeat split; left; reflexivity|].
  cbn. rewrite Ht. repeat split. right. exists f. repeat split; assumption || reflexivity.
Qed.

End Frame.

(** ** The local copy across a verification *)

Lemma only_offset_moved_refl fd w w' :
  files w' = files w -> only_offset_moved fd w w'.
Proof. intros Heq fd'. rewrite Heq. split; reflexivity. Qed.

Lemma only_offset_moved_insert fd w w' f o :
  files w !! fd = Some f ->
  files w' = <[fd := with_offset f o]> (files w) ->
  only_offset_moved fd w w'.
Proof.
  intros Hf Heq fd'. rewrite Heq. destruct (decide (fd' = fd)) as [->|Hne].
  - rewrite lookup_insert_eq, Hf. split; [reflexivity|]. intros Hc. contradiction.
  - rewrite lookup_insert_ne by congruence. split; reflexivity.
Qed.

Lemma only_offset_moved_trans fd w1 w2 w3 :
  only_offset_moved fd w1 w2 -> only_offset_moved fd w2 w3 -> only_offset_moved fd w1 w3.
Proof.
  intros H12 H23 fd'. destruct (H12 fd') as [Hc1 Hn1]. destruct (H23 fd') as [Hc2 Hn2].
  split; [congruence|]. intros Hne. rewrite (Hn2 Hne). exact (Hn1 Hne).
Qed.

Lemma only_offset_moved_cases fd w w' :
  files w' = files w \/
  (exists f, files w !! fd = Some f /\ read_fault f = None /\
             files w' = <[fd := with_offset f (offset f `max` length (data f))]> (files w)) ->
  only_offset_moved fd w w'.
Proof.
  intros [Heq | (f & Hf & _ & Heq)].
  - exact (only_offset_moved_refl _ _ _ Heq).
  - exact (only_offset_moved_insert _ _ _ _ _ Hf Heq).
Qed.

Lemma File_Seek_only_offset_moved fd off wh w :
  only_offset_moved fd w (snd (File_Seek fd off wh w)).
Proof.
  unfold File_Seek.
  destruct (files w !! fd) as [f|] eqn:Hf; [|apply only_offset_moved_refl; reflexivity].
  destruct (seek_fault f); [apply only_offset_moved_refl; reflexivity|].
  match goal with |- context [if ?c then _ else _] => destruct c end.
  - apply only_offset_moved_refl. reflexivity.
  - eapply only_offset_moved_insert; [exact Hf|]. reflexivity.
Qed.

Section LocalCopy.

Context `{Collaborators}.

Lemma Man_only_offset_moved b localCopy loc w :
  only_offset_moved localCopy w
    (snd (BuildManifestVerifier_VerifyHoistArtifact b localCopy loc w)).
Proof. apply only_offset_moved_cases. exact (proj2 (proj2 (Man_files b localCopy loc w))). Qed.

Lemma Build_only_offset_moved b localCopy loc w :
  only_offset_moved localCopy w (snd (BuildVerifier_VerifyHoistArtifact b localCopy loc w)).
Proof. apply only_offset_moved_cases. exact (proj2 (proj2 (Build_files b localCopy loc w))). Qed.

Lemma Composite_only_offset_moved b localCopy loc w :
  only_offset_moved localCopy w (snd (CompositeVerifier_VerifyHoistArtifact b localCopy loc w)).
Proof.
  unfold CompositeVerifier_VerifyHoistArtifact.
  pose proof (Man_only_offset_moved (manVerifier b) localCopy loc w) as Hman.
  destruct (BuildManifestVerifier_VerifyHoistArtifact (manVerifier b) localCopy loc w)
    as [[[]|e] w1]; cbn [snd] in Hman; [exact Hman|].
  pose proof (File_Seek_only_offset_moved localCopy 0 SEEK_SET w1) as Hseek.
  destruct (File_Seek localCopy 0 SEEK_SET w1) as [[z|c] w2]; cbn [snd] in Hseek.
  - exact (only_offset_moved_trans _ _ _ _ Hman
             (only_offset_moved_trans _ _ _ _ Hseek
                (Build_only_offset_moved (buildVerifier b) localCopy loc w2))).
  - exact (only_offset_moved_trans _ _ _ _ Hman Hseek).
Qed.

(** X3: no verifier opens, closes or rewrites a file: after a run, whatever
    its outcome, every open file has the name, the content and the faults
    it had, and every file but the local copy has its read offset too. *)
Theorem verifiers_only_move_the_offset
    (bm : BuildManifestVerifier) (bv : BuildVerifier) (cv : CompositeVerifier)
    localCopy loc w :
  only_offset_moved localCopy w (snd (VerifyHoistArtifact bm localCopy loc w)) /\
  only_offset_moved localCopy w (snd (VerifyHoistArtifact bv localCopy loc w)) /\
  only_offset_moved localCopy w (snd (VerifyHoistArtifact cv localCopy loc w)) /\
  snd (VerifyHoistArtifact NopVerifier localCopy loc w) = w.
Proof.
  split; [apply Man_only_offset_moved|].
  split; [apply Build_only_offset_moved|].
  split; [apply Composite_only_offset_moved|reflexivity].
Qed.

(** The local copy after the manifest verifier: the same file, at the
    offset it had or at its end. *)
Lemma Man_local_copy b localCopy loc w f :
  files w !! localCopy = Some f ->
  let w1 := snd (BuildManifestVerifier_VerifyHoistArtifact b localCopy loc w) in
  exists o, files w1 !! localCopy = Some (with_offset f o) /\ tmp_fault w1 = tmp_fault w.
Proof.
  intros Hf w1. destruct (Man_files b localCopy loc w) as (Hfault & _ & Hfiles).
  fold w1 in Hfault, Hfiles.
  destruct Hfiles as [Heq | (f0 & Hf0 & _ & Heq)].
  - exists (offset f). rewrite Heq, Hf. split; [|exact Hfault]. destruct f; reflexivity.
  - rewrite Hf in Hf0. inversion Hf0; subst f0.
    eexists. rewrite Heq, lookup_insert_eq. split; [reflexivity|exact Hfault].
Qed.

(** X4: when the manifest strategy has failed, for any reason, and the
    local copy can seek and be read, the composite's verdict is the check
    of the signature at [<base>.sig] over the whole content of the local
    copy, wherever the read offset was before and whatever the manifest
    strategy read. *)
Theorem composite_fallback_checks_whole_artifact b localCopy loc w e f s :
  fst (BuildManifestVerifier_VerifyHoistArtifact (manVerifier b) localCopy loc w) = Err e ->
  files w !! localCopy = Some f ->
  seek_fault f = None ->
  read_fault f = None ->
  recognized_scheme (Scheme loc) = true ->
  tmp_fault w = None ->
  bv_fetcher (buildVerifier b) (sigURL loc) = Ok s ->
  fst (CompositeVerifier_VerifyHoistArtifact b localCopy loc w) =
    verifySigned (bv_keyring (buildVerifier b)) (data f) s.
Proof.
  intros Hman Hf Hseek Hr Hs Ht Hfetch.
  destruct (Man_local_copy (manVerifier b) localCopy loc w f Hf) as (o & Hf1 & Hfault).
  destruct (BuildManifestVerifier_VerifyHoistArtifact (manVerifier b) localCopy loc w)
    as [r w1] eqn:Hrun.
  cbn [fst snd] in *. subst r.
  rewrite (Composite_after_failure _ _ _ _ _ _ _ Hrun Hf1).
  change (seek_fault (with_offset f o)) with (seek_fault f). rewrite Hseek.
  rewrite (Build_accepts (buildVerifier b) localCopy loc
             (rewound localCopy (with_offset f o) w1) s
             (with_offset (with_offset f o) 0) Hs).
  - reflexivity.
  - unfold rewound, set_files. cbn [tmp_fault]. congruence.
  - exact Hfetch.
  - unfold rewound, set_files. cbn [files]. apply lookup_insert_eq.
  - exact Hr.
Qed.

(** X5: the build verifier checks the signature over what is left of the
    stream.  On a local copy that has been read to its end it checks the
    signature over the empty payload, not over the artifact. *)
Theorem build_verifier_on_consumed_stream b localCopy loc w f s :
  recognized_scheme (Scheme loc) = true ->
  tmp_fault w = None ->
  bv_fetcher b (sigURL loc) = Ok s ->
  files w !! localCopy = Some f ->
  read_fault f = None ->
  length (data f) <= offset f ->
  fst (BuildVerifier_VerifyHoistArtifact b localCopy loc w) =
    verifySigned (bv_keyring b) [] s.
Proof.
  intros Hs Ht Hfetch Hf Hr Hend.
  rewrite (Build_accepts _ _ _ _ _ _ Hs Ht Hfetch Hf Hr), drop_ge by exact Hend.
  reflexivity.
Qed.

(** X6: the composite accepts only what is vouched for: either a manifest
    whose signature verifies and whose declared digest is the SHA-256 of
    what the local copy held from its read offset on, or a signature at
    [<base>.sig] that verifies over the whole content of the local copy. *)
Theorem composite_accepts_only_vouched b localCopy loc w f :
  files w !! localCopy = Some f ->
  fst (CompositeVerifier_VerifyHoistArtifact b localCopy loc w) = Ok tt ->
  (exists m s,
     bmv_fetcher (manVerifier b) (manifestURL loc) = Ok m /\
     bmv_fetcher (manVerifier b) (manifestSigURL loc) = Ok s /\
     verifySigned (bmv_keyring (manVerifier b)) m s = Ok tt /\
     declared_digest m =
       Ok (hex_EncodeToString (SHA256.Sum256 (drop (offset f) (data f))))) \/
  (exists s,
     bv_fetcher (buildVerifier b) (sigURL loc) = Ok s /\
     verifySigned (bv_keyring (buildVerifier b)) (data f) s = Ok tt).
Proof.
  intros Hf Hok.
  destruct (Man_local_copy (manVerifier b) localCopy loc w f Hf) as (o & Hf1 & Hfault).
  destruct (BuildManifestVerifier_VerifyHoistArtifact (manVerifier b) localCopy loc w)
    as [[[]|e] w1] eqn:Hrun; cbn [snd] in Hf1, Hfault.
  - left. apply Man_success_inv in Hrun
      as (m & s & f0 & _ & _ & Hm & Hsig & Hv & Hf0 & _ & Hd & _).
    rewrite Hf in Hf0. inversion Hf0; subst f0. exists m, s. repeat split; assumption.
  - right. rewrite (Composite_after_failure _ _ _ _ _ _ _ Hrun Hf1) in Hok.
    change (seek_fault (with_offset f o)) with (seek_fault f) in Hok.
    destruct (seek_fault f) as [c|]; [discriminate Hok|].
    apply Build_success_inv in Hok as (s & f2 & _ & _ & Hfetch & Hf2 & _ & Hv).
    unfold rewound, set_files in Hf2. cbn [files] in Hf2.
    rewrite lookup_insert_eq in Hf2. inversion Hf2; subst f2.
    exists s. split; [exact Hfetch|exact Hv].
Qed.

End LocalCopy.

(** ** The temporary directory *)

Lemma string_prefix_app (a b : string) : String.prefix a (a +:+ b) = true.
Proof.
  induction a as [|c a IH]; [destruct b; reflexivity|].
  change (String c a +:+ b) with (String c (a +:+ b)). cbn [String.prefix].
  destruct (ascii_dec c c) as [_|Hne]; [exact IH|contradiction].
Qed.

Lemma under_tempdir (dir file : string) (y : bytes) :
  ~ (filepath_Join dir file <> dir /\
     String.prefix (dir +:+ "/") (filepath_Join dir file) = false).
Proof.
  intros [_ Hp]. unfold filepath_Join in Hp.
  rewrite <- string_app_assoc, string_prefix_app in Hp. discriminate Hp.
Qed.

Lemma cleaned_tmpfs (dir : string) (w : World) :
  tmpfs (cleaned dir w) =
    filter (fun kv => kv.1 <> dir /\ String.prefix (dir +:+ "/") kv.1 = false) (tmpfs w).
Proof. reflexivity. Qed.

Section TempDir.

Context `{Collaborators}.

Lemma Man_tmpfs b localCopy loc w :
  recognized_scheme (Scheme loc) = true ->
  tmp_fault w = None ->
  tmpfs (snd (BuildManifestVerifier_VerifyHoistArtifact b localCopy loc w)) =
    filter (fun kv => kv.1 <> tempdir_name w /\
                      String.prefix (tempdir_name w +:+ "/") kv.1 = false) (tmpfs w).
Proof.
  intros Hs Ht.
  destruct (bmv_fetcher b (manifestURL loc)) as [m|c] eqn:Hm;
    [|rewrite (Man_manifest_fetch_fails _ _ _ _ _ Hs Ht Hm); reflexivity].
  destruct (bmv_fetcher b (manifestSigURL loc)) as [s|c] eqn:Hsig.
  - rewrite (Man_run _ _ _ _ _ _ Hs Ht Hm Hsig).
    assert (Hdone : tmpfs (cleaned (tempdir_name w) (fetched_manifest loc m s w)) =
                    filter (fun kv => kv.1 <> tempdir_name w /\
                              String.prefix (tempdir_name w +:+ "/") kv.1 = false) (tmpfs w)).
    { rewrite cleaned_tmpfs. unfold fetched_manifest. cbn [tmpfs].
      rewrite map_filter_insert_not by (intros y; apply under_tempdir; exact y).
      rewrite map_filter_insert_not by (intros y; apply under_tempdir; exact y).
      reflexivity. }
    destruct (verifySigned (bmv_keyring b) m s) as [[]|e]; [|exact Hdone].
    pose proof (checkMatchingDigest_world b localCopy m (fetched_manifest loc m s w))
      as (Htmp & _).
    destruct (checkMatchingDigest b localCopy m (fetched_manifest loc m s w)) as [r w'].
    cbn [snd] in Htmp |- *. rewrite cleaned_tmpfs, Htmp. rewrite cleaned_tmpfs in Hdone.
    exact Hdone.
  - rewrite (Man_signature_fetch_fails _ _ _ _ _ _ Hs Ht Hm Hsig). cbn [snd].
    rewrite cleaned_tmpfs. unfold set_fetched, set_tmpfs, set_tmp_seq. cbn [tmpfs].
    rewrite map_filter_insert_not by (intros y; apply under_tempdir; exact y).
    reflexivity.
Qed.

Lemma Build_tmpfs b localCopy loc w :
  recognized_scheme (Scheme loc) = true ->
  tmp_fault w = None ->
  tmpfs (snd (BuildVerifier_VerifyHoistArtifact b localCopy loc w)) =
    filter (fun kv => kv.1 <> tempdir_name w /\
                      String.prefix (tempdir_name w +:+ "/") kv.1 = false) (tmpfs w).
Proof.
  intros Hs Ht.
  destruct (bv_fetcher b (sigURL loc)) as [s|c] eqn:Hf;
    [|rewrite (Build_fetch_fails _ _ _ _ _ Hs Ht Hf); reflexivity].
  rewrite (Build_run _ _ _ _ _ Hs Ht Hf).
  assert (Hdone : tmpfs (cleaned (tempdir_name w) (fetched_signature loc s w)) =
                  filter (fun kv => kv.1 <> tempdir_name w /\
                            String.prefix (tempdir_name w +:+ "/") kv.1 = false) (tmpfs w)).
  { rewrite cleaned_tmpfs. unfold fetched_signature. cbn [tmpfs].
    rewrite map_filter_insert_not by (intros y; apply under_tempdir; exact y).
    reflexivity. }
  destruct (files w !! localCopy) as [f|]; [|exact Hdone].
  destruct (read_fault f); exact Hdone.
Qed.

(** X7: on every way out of the manifest verifier and of the build
    verifier, once the temporary directory has been made, it is removed
    with everything in it: nothing is left under it, the downloaded files
    included, and what lies outside it is as it was. *)
Theorem temporary_directory_removed bm bv localCopy loc w :
  recognized_scheme (Scheme loc) = true ->
  tmp_fault w = None ->
  let after_manifest := tmpfs (snd (BuildManifestVerifier_VerifyHoistArtifact bm localCopy loc w)) in
  let after_build := tmpfs (snd (BuildVerifier_VerifyHoistArtifact bv localCopy loc w)) in
  forall path,
    (outside (tempdir_name w) path ->
       after_manifest !! path = tmpfs w !! path /\ after_build !! path = tmpfs w !! path) /\
    (~ outside (tempdir_name w) path ->
       after_manifest !! path = None /\ after_build !! path = None).
Proof.
  intros Hs Ht after_manifest after_build path.
  unfold after_manifest, after_build.
  rewrite (Man_tmpfs _ _ _ _ Hs Ht), (Build_tmpfs _ _ _ _ Hs Ht).
  unfold outside. split.
  - intros Hout.
    assert (Hkeep : filter (fun kv : string * bytes => kv.1 <> tempdir_name w /\
                       String.prefix (tempdir_name w +:+ "/") kv.1 = false) (tmpfs w) !! path =
                    tmpfs w !! path).
    { destruct (tmpfs w !! path) as [y|] eqn:Hy.
      - apply map_lookup_filter_Some. split; [exact Hy|exact Hout].
      - apply map_lookup_filter_None. left. exact Hy. }
    split; exact Hkeep.
  - intros Hin.
    assert (Hgone : filter (fun kv : string * bytes => kv.1 <> tempdir_name w /\
                       String.prefix (tempdir_name w +:+ "/") kv.1 = false) (tmpfs w) !! path =
                    None).
    { apply map_lookup_filter_None. right. intros y _. exact Hin. }
    split; exact Hgone.
Qed.

End TempDir.

(** ** Digests *)

Lemma fromHexChar_hexdigit (v : byte) :
  fromHexChar (hexdigit (N.shiftr (Byte.to_N v) 4)) = Some (N.shiftr (Byte.to_N v) 4) /\
  fromHexChar (hexdigit (N.land (Byte.to_N v) 15)) = Some (N.land (Byte.to_N v) 15) /\
  byte_of_N (N.lor (N.shiftl (N.shiftr (Byte.to_N v) 4) 4) (N.land (Byte.to_N v) 15)) = v.
Proof. destruct v; vm_compute; repeat split. Qed.

(** Decoding the rendering of a byte string gives the byte string back. *)
Lemma hex_DecodeString_EncodeToString (src : bytes) :
  hex_DecodeString (hex_EncodeToString src) = Some src.
Proof.
  induction src as [|v rest IH]; [reflexivity|].
  destruct (fromHexChar_hexdigit v) as (Hhi & Hlo & Hv).
  cbn [hex_EncodeToString hex_DecodeString]. rewrite Hhi, Hlo, IH, Hv. reflexivity.
Qed.

Lemma hex_EncodeToString_inj (a b : bytes) :
  hex_EncodeToString a = hex_EncodeToString b -> a = b.
Proof.
  intros Heq. apply (f_equal hex_DecodeString) in Heq.
  rewrite !hex_DecodeString_EncodeToString in Heq. congruence.
Qed.

Section Digests.

Context `{Collaborators}.

Lemma checkMatchingDigest_accepted_digest b localCopy manifestBytes w f :
  files w !! localCopy = Some f ->
  fst (checkMatchingDigest b localCopy manifestBytes w) = Ok tt ->
  declared_digest manifestBytes =
    Ok (hex_EncodeToString (SHA256.Sum256 (drop (offset f) (data f)))).
Proof.
  intros Hf Hok.
  destruct (checkMatchingDigest b localCopy manifestBytes w) as [r w'] eqn:Hrun.
  cbn [fst] in Hok. subst r.
  apply checkMatchingDigest_success_inv in Hrun as (f0 & Hf0 & _ & Hd & _).
  rewrite Hf in Hf0. inversion Hf0; subst f0. exact Hd.
Qed.

(** X8: a manifest vouches for one digest.  If the digest check passes
    for two local copies against the same manifest, what the two streams
    held has the same SHA-256 digest. *)
Theorem one_manifest_one_digest b1 b2 fd1 fd2 manifestBytes w1 w2 f1 f2 :
  files w1 !! fd1 = Some f1 ->
  files w2 !! fd2 = Some f2 ->
  fst (checkMatchingDigest b1 fd1 manifestBytes w1) = Ok tt ->
  fst (checkMatchingDigest b2 fd2 manifestBytes w2) = Ok tt ->
  SHA256.Sum256 (drop (offset f1) (data f1)) = SHA256.Sum256 (drop (offset f2) (data f2)).
Proof.
  intros Hf1 Hf2 Hok1 Hok2.
  pose proof (checkMatchingDigest_accepted_digest _ _ _ _ _ Hf1 Hok1) as Hd1.
  pose proof (checkMatchingDigest_accepted_digest _ _ _ _ _ Hf2 Hok2) as Hd2.
  rewrite Hd1 in Hd2.
  apply (f_equal (fun d => match d with Ok v => v | Err _ => "" end)) in Hd2.
  exact (hex_EncodeToString_inj _ _ Hd2).
Qed.

(** X9: a declared digest that is not 64 characters long, or that has a
    character outside [0-9a-f] (an upper-case digit, a space, a line
    end), never passes the digest check, whatever the local copy. *)
Theorem malformed_digest_never_matches b localCopy manifestBytes w d :
  declared_digest manifestBytes = Ok d ->
  String.length d <> 64 \/ is_lower_hex d = false ->
  fst (checkMatchingDigest b localCopy manifestBytes w) <> Ok tt.
Proof.
  intros Hd Hbad Hok.
  destruct (checkMatchingDigest b localCopy manifestBytes w) as [r w'] eqn:Hrun.
  cbn [fst] in Hok. subst r.
  apply checkMatchingDigest_success_inv in Hrun as (f & _ & _ & Hreal & _).
  rewrite Hd in Hreal.
  apply (f_equal (fun d => match d with Ok v => v | Err _ => "" end)) in Hreal.
  subst d. destruct Hbad as [Hlen | Hhex].
  - apply Hlen. apply realDigest_length.
  - rewrite hex_EncodeToString_lower in Hhex. discriminate Hhex.
Qed.


End Digests.

(** ** What the composite asks the fetcher, and what the constructors do *)

Section Requests.

Context `{Collaborators}.

Lemma Man_requests b localCopy loc w :
  exists l,
    fetched (snd (BuildManifestVerifier_VerifyHoistArtifact b localCopy loc w)) =
      (fetched w ++ l)%list /\
    sublist (map fst l) [manifestURL loc; manifestSigURL loc].
Proof.
  destruct (recognized_scheme (Scheme loc)) eqn:Hs.
  - destruct (tmp_fault w) as [c|] eqn:Ht.
    + rewrite (Man_tempdir_fault _ _ _ _ _ Hs Ht). exists []. rewrite app_nil_r.
      split; [reflexivity|apply sublist_nil_l].
    + rewrite (Man_fetched _ _ _ _ Hs Ht). eexists. split; [reflexivity|].
      destruct (bmv_fetcher b (manifestURL loc)); cbn [map fst].
      * reflexivity.
      * apply sublist_skip, sublist_nil_l.
  - rewrite (Man_unrecognized _ _ _ _ Hs). exists []. rewrite app_nil_r.
    split; [reflexivity|apply sublist_nil_l].
Qed.

Lemma Build_requests b localCopy loc w :
  exists l,
    fetched (snd (BuildVerifier_VerifyHoistArtifact b localCopy loc w)) =
      (fetched w ++ l)%list /\
    sublist (map fst l) [sigURL loc].
Proof.
  destruct (recognized_scheme (Scheme loc)) eqn:Hs.
  - destruct (tmp_fault w) as [c|] eqn:Ht.
    + rewrite (Build_tempdir_fault _ _ _ _ _ Hs Ht). exists []. rewrite app_nil_r.
      split; [reflexivity|apply sublist_nil_l].
    + rewrite (Build_fetched _ _ _ _ Hs Ht). eexists. split; reflexivity.
  - rewrite (Build_unrecognized _ _ _ _ Hs). exists []. rewrite app_nil_r.
    split; [reflexivity|apply sublist_nil_l].
Qed.

Lemma File_Seek_fetched fd off wh w : fetched (snd (File_Seek fd off wh w)) = fetched w.
Proof.
  unfold File_Seek. destruct (files w !! fd) as [f|]; [|reflexivity].
  destruct (seek_fault f); [reflexivity|].
  match goal with |- context [if ?c then _ else _] => destruct c end; reflexivity.
Qed.

(** X11: whatever happens, the composite asks the fetcher for nothing but
    the three companions of the artifact, each at most once and in the
    order manifest, manifest signature, direct signature; it never asks
    for the artifact itself. *)
Theorem composite_asks_only_for_companions b localCopy loc w :
  sublist (map fst (asked w (snd (CompositeVerifier_VerifyHoistArtifact b localCopy loc w))))
          [manifestURL loc; manifestSigURL loc; sigURL loc] /\
  loc ∉ [manifestURL loc; manifestSigURL loc; sigURL loc].
Proof.
  split.
  - unfold CompositeVerifier_VerifyHoistArtifact.
    destruct (Man_requests (manVerifier b) localCopy loc w) as (l1 & Hl1 & Hs1).
    destruct (BuildManifestVerifier_VerifyHoistArtifact (manVerifier b) localCopy loc w)
      as [[[]|e] w1]; cbn [snd] in Hl1.
    + cbn [snd]. rewrite (asked_app _ _ _ Hl1).
      change [manifestURL loc; manifestSigURL loc; sigURL loc]
        with ([manifestURL loc; manifestSigURL loc] ++ [sigURL loc])%list.
      apply sublist_inserts_r. exact Hs1.
    + pose proof (File_Seek_fetched localCopy 0 SEEK_SET w1) as Hseek.
      destruct (File_Seek localCopy 0 SEEK_SET w1) as [[z|c] w2]; cbn [snd] in Hseek |- *.
      * destruct (Build_requests (buildVerifier b) localCopy loc w2) as (l2 & Hl2 & Hs2).
        rewrite Hseek, Hl1, <- app_assoc in Hl2.
        rewrite (asked_app _ _ _ Hl2), map_app.
        change [manifestURL loc; manifestSigURL loc; sigURL loc]
          with ([manifestURL loc; manifestSigURL loc] ++ [sigURL loc])%list.
        apply sublist_app; assumption.
      * rewrite <- Hseek in Hl1. rewrite (asked_app _ _ _ Hl1).
        change [manifestURL loc; manifestSigURL loc; sigURL loc]
          with ([manifestURL loc; manifestSigURL loc] ++ [sigURL loc])%list.
        apply sublist_inserts_r. exact Hs1.
  - assert (Hpath : forall suffix : string,
              suffix <> "" -> Path loc <> Path loc +:+ suffix).
    { intros suffix Hne Heq. apply (f_equal String.length) in Heq.
      rewrite string_app_length in Heq. destruct suffix; [contradiction|].
      cbn [String.length] in Heq. lia. }
    intros Hin.
    apply elem_of_cons in Hin as [Heq|Hin];
      [apply (f_equal Path) in Heq; exact (Hpath ".manifest" ltac:(discriminate) Heq)|].
    apply elem_of_cons in Hin as [Heq|Hin];
      [apply (f_equal Path) in Heq; exact (Hpath ".manifest.sig" ltac:(discriminate) Heq)|].
    apply elem_of_cons in Hin as [Heq|Hin];
      [apply (f_equal Path) in Heq; exact (Hpath ".sig" ltac:(discriminate) Heq)|].
    apply elem_of_nil in Hin. exact Hin.
Qed.

(** X12: when the key store loads the keyring, the composite's
    constructor gives both inner verifiers that keyring, the fetcher and
    the logger it was given; the key store is asked twice, once for each
    inner verifier, and nothing else in the world changes. *)
Theorem composite_constructor_loads_keyring_twice keyringPath fetcher logger w keyring :
  LoadKeyring keyringPath = Ok keyring ->
  NewCompositeVerifier keyringPath fetcher logger w =
    (Ok (mkCompositeVerifier (mkBuildManifestVerifier keyring fetcher logger)
                             (mkBuildVerifier keyring fetcher logger)),
     set_keyring_loads (keyring_loads w ++ [keyringPath; keyringPath]) w).
Proof.
  intros Hl.
  unfold NewCompositeVerifier, NewBuildManifestVerifier, NewBuildVerifier,
    mbind, M_bind, mret, M_ret, on_err, LoadKeyring_io.
  rewrite Hl. cbn. rewrite <- app_assoc. reflexivity.
Qed.

End Requests.

(** ** The scheduling tool *)

Section Scheduling.

Context `{Schedule.Environment}.

Lemma schedule_one_stderr node p path :
  exists l,
    Schedule.stderr (Schedule.schedule_one node p path) = (Schedule.stderr p ++ [l])%list /\
    Schedule.reports path l.
Proof.
  unfold Schedule.schedule_one, Schedule.reports.
  destruct (Schedule.PodManifestFromPath path) as [manifest|err].
  - destruct (Schedule.SetPod (Schedule.store p)
                (Schedule.IntentPath node (Schedule.PodManifest_ID manifest)) manifest)
      as [[duration|err] store'].
    + eexists. split; [reflexivity|]. right. exists duration. reflexivity.
    + eexists. split; [reflexivity|]. left. exists err. reflexivity.
  - eexists. split; reflexivity.
Qed.

Lemma schedule_one_store node p path :
  Schedule.store (Schedule.schedule_one node p path) =
    match Schedule.PodManifestFromPath path with
    | Ok manifest => Schedule.write_pod node (Schedule.store p) manifest
    | Err _ => Schedule.store p
    end.
Proof.
  unfold Schedule.schedule_one, Schedule.write_pod.
  destruct (Schedule.PodManifestFromPath path) as [manifest|err]; [|reflexivity].
  destruct (Schedule.SetPod (Schedule.store p)
              (Schedule.IntentPath node (Schedule.PodManifest_ID manifest)) manifest)
    as [[duration|err] store']; reflexivity.
Qed.

Lemma schedule_all_stderr node paths p :
  exists ls,
    Schedule.stderr (fold_left (Schedule.schedule_one node) paths p) =
      (Schedule.stderr p ++ ls)%list /\
    Forall2 Schedule.reports paths ls.
Proof.
  revert p. induction paths as [|path paths IH]; intros p.
  - exists []. rewrite app_nil_r. split; [reflexivity|constructor].
  - cbn [fold_left].
    destruct (schedule_one_stderr node p path) as (l & Hl & Hrep).
    destruct (IH (Schedule.schedule_one node p path)) as (ls & Hls & Hreps).
    exists (l :: ls). rewrite Hls, Hl, <- app_assoc. split; [reflexivity|].
    constructor; assumption.
Qed.

Lemma schedule_all_store node paths p :
  Schedule.store (fold_left (Schedule.schedule_one node) paths p) =
    fold_left (Schedule.write_pod node) (Schedule.readable paths) (Schedule.store p).
Proof.
  revert p. induction paths as [|path paths IH]; intros p; [reflexivity|].
  cbn [fold_left]. rewrite IH, schedule_one_store. unfold Schedule.readable.
  destruct (Schedule.PodManifestFromPath path) as [manifest|err] eqn:Hpath;
    cbn; rewrite Hpath; reflexivity.
Qed.

(** The node the pods are scheduled on: the value of [--node], or the
    host name when it is empty. *)
Lemma main_with_node args os_Hostname node :
  (if String.eqb (Schedule.nodeName args) "" then os_Hostname
   else Ok (Schedule.nodeName args)) = Ok node ->
  Schedule.manifests args <> [] ->
  Schedule.main args os_Hostname =
    (Schedule.Returned,
     fold_left (Schedule.schedule_one node) (Schedule.manifests args)
               (Schedule.mkProc [] Schedule.NewStore)).
Proof.
  intros Hnode Hne. unfold Schedule.main. rewrite Hnode.
  destruct (Schedule.manifests args); [contradiction|reflexivity].
Qed.

(** X13: with a node name and at least one manifest, [main] returns, and
    standard error holds one report for every manifest, in the order of
    the arguments: that it could not be read, that it could not be
    written, or that it was scheduled.  A manifest that fails does not
    stop the ones after it, and does not make the tool exit with an
    error. *)
Theorem every_manifest_is_reported args os_Hostname node :
  (if String.eqb (Schedule.nodeName args) "" then os_Hostname
   else Ok (Schedule.nodeName args)) = Ok node ->
  Schedule.manifests args <> [] ->
  fst (Schedule.main args os_Hostname) = Schedule.Returned /\
  Forall2 Schedule.reports (Schedule.manifests args)
          (Schedule.stderr (snd (Schedule.main args os_Hostname))).
Proof.
  intros Hnode Hne. rewrite (main_with_node _ _ _ Hnode Hne). split; [reflexivity|].
  destruct (schedule_all_stderr node (Schedule.manifests args)
              (Schedule.mkProc [] Schedule.NewStore)) as (ls & Hls & Hreps).
  cbn [snd]. rewrite Hls. exact Hreps.
Qed.

(** X14: the intent store ends as the new store with the manifests that
    could be read written to it one after the other, in the order of the
    arguments, each under the intent path of the node and of its id.  A
    manifest that cannot be read is not written, and a write that fails
    does not keep the later ones from being tried. *)
Theorem store_gets_the_readable_manifests args os_Hostname node :
  (if String.eqb (Schedule.nodeName args) "" then os_Hostname
   else Ok (Schedule.nodeName args)) = Ok node ->
  Schedule.manifests args <> [] ->
  Schedule.store (snd (Schedule.main args os_Hostname)) =
    fold_left (fun s manifest =>
                 snd (Schedule.SetPod s
                        (Schedule.IntentPath node (Schedule.PodManifest_ID manifest))
                        manifest))
              (Schedule.readable (Schedule.manifests args)) Schedule.NewStore.
Proof.
  intros Hnode Hne. rewrite (main_with_node _ _ _ Hnode Hne). cbn [snd].
  apply schedule_all_store.
Qed.

(** X15: [main] exits with status 1 exactly when the node name is not
    given and the host name cannot be found, or no manifest is given;
    otherwise it returns.  When it exits, the intent store has not been
    written to; and a failing host name is reported even when no manifest
    is given. *)
Theorem fatal_exits args os_Hostname :
  (fst (Schedule.main args os_Hostname) = Schedule.Exited 1 <->
   (Schedule.nodeName args = "" /\ exists err, os_Hostname = Err err) \/
   Schedule.manifests args = []) /\
  (fst (Schedule.main args os_Hostname) = Schedule.Returned \/
   fst (Schedule.main args os_Hostname) = Schedule.Exited 1 /\
   Schedule.store (snd (Schedule.main args os_Hostname)) = Schedule.NewStore) /\
  (Schedule.nodeName args = "" ->
   forall err, os_Hostname = Err err ->
   Schedule.stderr (snd (Schedule.main args os_Hostname)) =
     [Schedule.Logged ("Could not get the hostname to do scheduling: " +:+ err)]).
Proof.
  unfold Schedule.main.
  destruct (String.eqb (Schedule.nodeName args) "") eqn:Hflag.
  - apply String.eqb_eq in Hflag. destruct os_Hostname as [h|err].
    + destruct (Schedule.manifests args) as [|path paths]; cbn [fst snd].
      * split; [split; [intros _; right; reflexivity|reflexivity]|].
        split; [right; split; reflexivity|]. intros _ err Herr. discriminate Herr.
      * split; [split; [discriminate|]|].
        { intros [[_ [err Herr]] | Hnil]; discriminate. }
        split; [left; reflexivity|]. intros _ err Herr. discriminate Herr.
    + cbn [fst snd]. split; [split; [|reflexivity]|].
      { intros _. left. split; [exact Hflag|]. exists err. reflexivity. }
      split; [right; split; reflexivity|].
      intros _ err' Herr. inversion Herr. reflexivity.
  - apply String.eqb_neq in Hflag.
    destruct (Schedule.manifests args) as [|path paths]; cbn [fst snd].
    + split; [split; [intros _; right; reflexivity|reflexivity]|].
      split; [right; split; reflexivity|]. intros Hempty. contradiction.
    + split; [split; [discriminate|]|].
      { intros [[Hempty _] | Hnil]; [contradiction|discriminate]. }
      split; [left; reflexivity|]. intros Hempty. contradiction.
Qed.

(** X16: the flag [--node] defaults to the host name: leaving it empty on
    a host named [h] is the same as giving [--node h]; and when it is
    given, what [os.Hostname] returns makes no difference. *)
Theorem node_defaults_to_hostname paths node h (h1 h2 : result cause string) :
  Schedule.main (Schedule.mkArgs paths "") (Ok h) =
    Schedule.main (Schedule.mkArgs paths h) (Ok h) /\
  (node <> "" ->
   Schedule.main (Schedule.mkArgs paths node) h1 =
     Schedule.main (Schedule.mkArgs paths node) h2).
Proof.
  split.
  - unfold Schedule.main. cbn [Schedule.nodeName Schedule.manifests].
    destruct (String.eqb h "") eqn:Hh; reflexivity.
  - intros Hne. unfold Schedule.main. cbn [Schedule.nodeName].
    apply String.eqb_neq in Hne. rewrite Hne. reflexivity.
Qed.

End Scheduling.

(** ** The further properties at work *)

(** The manifest is stale and the local copy is at offset 1: the fallback
    still checks the signature over all of the artifact, and accepts. *)
Lemma composite_fallback_checks_whole_artifact_witness :
  let b := Fixture.composite (Fixture.serve Fixture.stale_manifest "build" "build") in
  let f := with_offset (Fixture.local_file None None) 1 in
  let w := Fixture.world f in
  fst (BuildVerifier_VerifyHoistArtifact (buildVerifier b) 3 Fixture.location w) =
    Err (ErrSignature "openpgp: signature made by unknown entity") /\
  fst (CompositeVerifier_VerifyHoistArtifact b 3 Fixture.location w) = Ok tt.
Proof.
  intros b f w. split; [vm_compute; reflexivity|].
  rewrite (composite_fallback_checks_whole_artifact b 3 Fixture.location w _ f
             (Fixture.armored (Fixture.sign "build" Fixture.artifact))
             ltac:(vm_compute; reflexivity) eq_refl eq_refl eq_refl eq_refl eq_refl eq_refl).
  vm_compute. reflexivity.
Defined.

(** The artifact is signed by the build key, but the local copy has been
    read to its end: the build verifier rejects it. *)
Lemma build_verifier_on_consumed_stream_witness :
  let b := Fixture.buildV (Fixture.serve Fixture.good_manifest "build" "build") in
  let f := with_offset (Fixture.local_file None None) 3 in
  let s := Fixture.armored (Fixture.sign "build" Fixture.artifact) in
  verifySigned (bv_keyring b) Fixture.artifact s = Ok tt /\
  fst (BuildVerifier_VerifyHoistArtifact b 3 Fixture.location (Fixture.world f)) =
    Err (ErrSignature "openpgp: signature made by unknown entity").
Proof.
  intros b f s. split; [vm_compute; reflexivity|].
  rewrite (build_verifier_on_consumed_stream b 3 Fixture.location (Fixture.world f) f s
             eq_refl eq_refl eq_refl eq_refl eq_refl ltac:(vm_compute; lia)).
  vm_compute. reflexivity.
Defined.

Lemma composite_accepts_only_vouched_witness :
  let b := Fixture.composite (Fixture.serve Fixture.stale_manifest "build" "build") in
  let f := Fixture.local_file None None in
  (exists m s,
     bmv_fetcher (manVerifier b) (manifestURL Fixture.location) = Ok m /\
     bmv_fetcher (manVerifier b) (manifestSigURL Fixture.location) = Ok s /\
     verifySigned (bmv_keyring (manVerifier b)) m s = Ok tt /\
     declared_digest m =
       Ok (hex_EncodeToString (SHA256.Sum256 (drop (offset f) (data f))))) \/
  (exists s,
     bv_fetcher (buildVerifier b) (sigURL Fixture.location) = Ok s /\
     verifySigned (bv_keyring (buildVerifier b)) (data f) s = Ok tt).
Proof.
  intros b f.
  refine (composite_accepts_only_vouched b 3 Fixture.location (Fixture.world f) f eq_refl _).
  vm_compute. reflexivity.
Defined.

Lemma temporary_directory_removed_witness :
  let bm := Fixture.manV (Fixture.serve Fixture.good_manifest "build" "build") in
  let bv := Fixture.buildV (Fixture.serve Fixture.good_manifest "build" "build") in
  let w := Fixture.world (Fixture.local_file None None) in
  tempdir_name w = "/tmp/artifact_verification0" /\
  tmpfs (snd (BuildManifestVerifier_VerifyHoistArtifact bm 3 Fixture.location w))
    !! "/tmp/artifact_verification0/manifest" = None /\
  tmpfs (snd (BuildVerifier_VerifyHoistArtifact bv 3 Fixture.location w))
    !! "/tmp/artifact_verification0/manifest" = None.
Proof.
  intros bm bv w. split; [vm_compute; reflexivity|].
  refine (proj2 (temporary_directory_removed bm bv 3 Fixture.location w eq_refl eq_refl
                   "/tmp/artifact_verification0/manifest") _).
  intros [_ Hprefix]. vm_compute in Hprefix. discriminate Hprefix.
Defined.

(** Two local copies that pass against the same manifest: one at its
    start, one that holds another byte before its read offset. *)
Lemma one_manifest_one_digest_witness :
  let b := Fixture.manV (Fixture.serve Fixture.good_manifest "build" "build") in
  let f1 := Fixture.local_file None None in
  let f2 := mkFile "/tmp/copy.tar.gz" (bytes_of_string "xabc") 1 None None in
  SHA256.Sum256 (drop (offset f1) (data f1)) = SHA256.Sum256 (drop (offset f2) (data f2)).
Proof.
  intros b f1 f2.
  refine (one_manifest_one_digest b b 3 3 Fixture.good_manifest
            (Fixture.world f1) (Fixture.world f2) f1 f2 eq_refl eq_refl _ _);
    vm_compute; reflexivity.
Defined.

(** The right digest in upper case. *)
Lemma malformed_digest_never_matches_witness :
  let b := Fixture.manV (Fixture.serve Fixture.good_manifest "build" "build") in
  let d := "BA7816BF8F01CFEA414140DE5DAE2223B00361A396177A9CB410FF61F20015AD" in
  String.length d = 64 /\
  fst (checkMatchingDigest b 3 (Fixture.yaml_key ++ bytes_of_string d)
         (Fixture.world (Fixture.local_file None None))) <> Ok tt.
Proof.
  intros b d. split; [reflexivity|].
  refine (malformed_digest_never_matches b 3 (Fixture.yaml_key ++ bytes_of_string d)
            (Fixture.world (Fixture.local_file None None)) d _ (or_intror _));
    vm_compute; reflexivity.
Defined.


Lemma composite_constructor_loads_keyring_twice_witness :
  let fetcher := Fixture.serve Fixture.good_manifest "build" "build" in
  let w := Fixture.world (Fixture.local_file None None) in
  fst (NewCompositeVerifier Fixture.keyring_path fetcher mkLogger w) =
    Ok (Fixture.composite fetcher) /\
  keyring_loads (snd (NewCompositeVerifier Fixture.keyring_path fetcher mkLogger w)) =
    [Fixture.keyring_path; Fixture.keyring_path].
Proof.
  intros fetcher w.
  rewrite (@composite_constructor_loads_keyring_twice Fixture.collaborators
             Fixture.keyring_path fetcher mkLogger w ["build"] eq_refl).
  split; reflexivity.
Defined.

(** Four manifests on the host node1: one scheduled, one that cannot be
    read, one that cannot be written, one scheduled. *)
Lemma every_manifest_is_reported_witness :
  let args := Schedule.mkArgs ["/pods/web"; "/etc/missing"; "/pods/broken"; "/pods/db"] "" in
  fst (Schedule.main args (Ok "node1")) = Schedule.Returned /\
  Forall2 Schedule.reports (Schedule.manifests args)
          (Schedule.stderr (snd (Schedule.main args (Ok "node1")))).
Proof.
  intros args.
  refine (every_manifest_is_reported args (Ok "node1") "node1" eq_refl _).
  discriminate.
Defined.

Lemma store_gets_the_readable_manifests_witness :
  let args := Schedule.mkArgs ["/pods/web"; "/etc/missing"; "/pods/broken"; "/pods/db"] "" in
  Schedule.store (snd (Schedule.main args (Ok "node1"))) =
    [("intent/node1/web", "web"); ("intent/node1/db", "db")].
Proof.
  intros args.
  rewrite (store_gets_the_readable_manifests args (Ok "node1") "node1" eq_refl
             ltac:(discriminate)).
  vm_compute. reflexivity.
Defined.

Example schedule_run :
  Schedule.stderr (snd (Schedule.main
    (Schedule.mkArgs ["/pods/web"; "/etc/missing"; "/pods/broken"] "") (Ok "node1"))) =
  [Schedule.Logged "Scheduling web took 16ms";
   Schedule.Written ("Could not read manifest at /etc/missing: no such file or directory"
                     +:+ Schedule.LF);
   Schedule.Written ("Could not write manifest broken to intent store: consul: no leader"
                     +:+ Schedule.LF)].
Proof. vm_compute. reflexivity. Qed.
